(** * ubc: component generators and the component documentation writer

    A shallow embedding of [ubc/bend90.py] and [docs/write_components_doc.py],
    with the parts of the Python runtime both files lean on (string order,
    [sorted], [repr], the [.3f] format, binary64 arithmetic), followed by the
    properties of the two programs. *)

From Stdlib Require Import ZArith String Ascii List Lia.
From Stdlib Require Import DecimalString SpecFloat.
From stdpp Require Import base decidable list sorting strings gmap.

Local Set Warnings "-register-all".
Local Open Scope string_scope.
Local Open Scope Z_scope.

(** * Part I: definitions *)

(** ** The Python runtime *)
Module Py.

(** *** Exceptions *)

Inductive exn : Type :=
| KeyError (key : string)
| TypeError
| ValueError
| OverflowError.

Inductive result (A : Type) : Type :=
| OK (a : A)
| Raise (e : exn).
Arguments OK {A} a.
Arguments Raise {A} e.

Definition rbind {A B} (r : result A) (k : A -> result B) : result B :=
  match r with
  | OK a => k a
  | Raise e => Raise e
  end.

(** *** Characters and strings

    A [str] is a sequence of code points; the model keeps the code
    points below 256, one per [ascii]. *)

Definition dquote : ascii := "034"%char.
Definition squote : ascii := "039"%char.
Definition backslash : ascii := "092"%char.
Definition newline : ascii := "010"%char.

Definition str1 (c : ascii) : string := String c EmptyString.

(** [a <= b] and [a < b] on [str]: lexicographic on code points. *)
Abbreviation str_le := String.le.
Definition str_lt (a b : string) : Prop := Is_true (String.ltb a b).

(** [sorted(xs)] on a list of [str]. *)
Definition sorted (xs : list string) : list string := merge_sort str_le xs.

(** [s.startswith(p)] *)
Definition startswith (s p : string) : bool := String.prefix p s.

(** [sep.join(xs)] *)
Definition join (sep : string) (xs : list string) : string :=
  String.concat sep xs.

(** *** Integers *)

(** [repr(z)] and [str(z)] of an [int]: decimal, [-] for negatives. *)
Definition repr_int (z : Z) : string := NilZero.string_of_int (Z.to_int z).

Definition digit (d : Z) : ascii := ascii_of_nat (48 + Z.to_nat d).

Definition hexdigit (d : Z) : ascii :=
  if d <? 10 then digit d else ascii_of_nat (87 + Z.to_nat d).

(** *** Floats: IEEE 754 binary64, as [spec_float] *)

Definition prec : Z := 53.
Definition emax : Z := 1024.

Definition fadd : spec_float -> spec_float -> spec_float := SFadd prec emax.
Definition fmul : spec_float -> spec_float -> spec_float := SFmul prec emax.

(** [float(z)] of an [int]: rounded to nearest, ties to even; an [int]
    that rounds beyond the largest float raises. *)
Definition float_of_int (z : Z) : result spec_float :=
  match binary_normalize prec emax z 0 false with
  | S754_infinity _ => Raise OverflowError
  | f => OK f
  end.

(** The float of a small [int], as in [i * 0.1]. *)
Definition float_of_small_int (z : Z) : spec_float :=
  binary_normalize prec emax z 0 false.

(** The literals [0.0], [0.1], [0.2] and [0.5]. *)
Definition float_0_0 : spec_float := S754_zero false.
Definition float_0_1 : spec_float := S754_finite false 7205759403792794 (-56).
Definition float_0_2 : spec_float := S754_finite false 7205759403792794 (-55).
Definition float_0_5 : spec_float := S754_finite false 4503599627370496 (-53).

Definition sign_str (neg : bool) : string := if neg then "-" else EmptyString.

(** [num / den] rounded to the nearest integer, ties to even
    ([0 <= num], [0 < den]). *)
Definition round_half_even (num den : Z) : Z :=
  let q := num / den in
  match 2 * (num mod den) ?= den with
  | Lt => q
  | Gt => q + 1
  | Eq => if Z.even q then q else q + 1
  end.

(** Fixed notation with three decimals of [n / 1000], [0 <= n]. *)
Definition fixed3 (neg : bool) (n : Z) : string :=
  sign_str neg ++ repr_int (n / 1000) ++ "." ++
  String (digit (n / 100 mod 10))
    (String (digit (n / 10 mod 10)) (String (digit (n mod 10)) EmptyString)).

(** [format(f, '.3f')] of a [float]. *)
Definition format_float_3f (f : spec_float) : string :=
  match f with
  | S754_nan => "nan"
  | S754_infinity s => sign_str s ++ "inf"
  | S754_zero s => fixed3 s 0
  | S754_finite s m e =>
      fixed3 s (if 0 <=? e then Z.pos m * 2 ^ e * 1000
                else round_half_even (Z.pos m * 1000) (2 ^ (- e)))
  end.

(** [repr] of a [float]: the shortest decimal string that reads back as
    the same float, the closest to it among the shortest.

    The float is [X / Q]; a decimal reads back as it when it lies between
    [LO / Q] and [HI / Q], the midpoints to the neighbouring floats, which
    themselves read back as it when its mantissa is even. *)

Definition ndigits (n : Z) : Z := Z.of_nat (String.length (repr_int n)).

Fixpoint scale_up (fuel : nat) (X Q j : Z) : Z :=
  match fuel with
  | O => j
  | S fuel' => if Q <=? X then j else scale_up fuel' (10 * X) Q (j + 1)
  end.

(** [k] with [10 ^ (k - 1) <= X / Q < 10 ^ k]. *)
Definition decpt_of (X Q : Z) : Z :=
  let j := scale_up 400 X Q 0 in
  ndigits (X * 10 ^ j / Q) - j.

(** The best decimal of [n] digits, when one reads back: its digits as an
    integer, and its decimal point. *)
Definition shortest_try (X Q LO HI : Z) (closed : bool) (k n : Z)
  : option (Z * Z) :=
  let a := if k <=? n then 10 ^ (n - k) else 1 in
  let b := if k <=? n then 1 else 10 ^ (k - n) in
  let xa := X * a in
  let qb := Q * b in
  let c := xa / qb in
  let inside v :=
    if closed then (LO * a <=? v) && (v <=? HI * a)
    else (LO * a <? v) && (v <? HI * a) in
  let low := (c, k) in
  let high := if c + 1 =? 10 ^ n then (1, k + 1) else (c + 1, k) in
  let dl := xa - c * qb in
  let dh := (c + 1) * qb - xa in
  match inside (c * qb), inside ((c + 1) * qb) with
  | false, false => None
  | true, false => Some low
  | false, true => Some high
  | true, true =>
      if dl <? dh then Some low
      else if dh <? dl then Some high
      else if Z.even c then Some low else Some high
  end.

Fixpoint shortest_from (fuel : nat) (X Q LO HI : Z) (closed : bool) (k n : Z)
  : Z * Z :=
  match fuel with
  | O => (X / Q, k)
  | S fuel' =>
      match shortest_try X Q LO HI closed k n with
      | Some r => r
      | None => shortest_from fuel' X Q LO HI closed k (n + 1)
      end
  end.

Definition shortest_digits (m : positive) (e : Z) : Z * Z :=
  let m4 := 4 * Z.pos m in
  let lo := if (Z.pos m =? 2 ^ 52) && (-1074 <? e) then m4 - 1 else m4 - 2 in
  let hi := m4 + 2 in
  let sh := e - 2 in
  let up := if 0 <=? sh then 2 ^ sh else 1 in
  let Q := if 0 <=? sh then 1 else 2 ^ (- sh) in
  let X := m4 * up in
  shortest_from 17 X Q (lo * up) (hi * up) (Z.even (Z.pos m)) (decpt_of X Q) 1.

Definition zeros (n : Z) : string :=
  String.concat EmptyString (repeat "0" (Z.to_nat n)).

Definition substr_from (n : Z) (s : string) : string :=
  String.substring (Z.to_nat n) (String.length s - Z.to_nat n) s.

Definition substr_to (n : Z) (s : string) : string :=
  String.substring 0 (Z.to_nat n) s.

(** The exponent of the scientific notation: a sign and two digits or more. *)
Definition exponent_str (x : Z) : string :=
  "e" ++ (if x <? 0 then "-" else "+") ++
  (if Z.abs x <? 10 then "0" else EmptyString) ++ repr_int (Z.abs x).

Definition repr_digits (ds : string) (k : Z) : string :=
  let n := Z.of_nat (String.length ds) in
  if (k <=? -4) || (16 <? k) then
    substr_to 1 ds ++
    (if 1 <? n then "." ++ substr_from 1 ds else EmptyString) ++
    exponent_str (k - 1)
  else if k <=? 0 then "0." ++ zeros (- k) ++ ds
  else if k <? n then substr_to k ds ++ "." ++ substr_from k ds
  else ds ++ zeros (k - n) ++ ".0".

Definition repr_float (f : spec_float) : string :=
  match f with
  | S754_nan => "nan"
  | S754_infinity s => sign_str s ++ "inf"
  | S754_zero s => sign_str s ++ "0.0"
  | S754_finite s m e =>
      let '(c, k) := shortest_digits m e in
      sign_str s ++ repr_digits (repr_int c) k
  end.

(** *** Values *)

Inductive pyval : Type :=
| PyEmpty                              (* [inspect.Parameter.empty] *)
| PyNone
| PyBool (b : bool)
| PyInt (z : Z)
| PyFloat (f : spec_float)
| PyStr (s : string)
| PyTuple (items : list pyval)
| PyList (items : list pyval)
| PyDict (items : list (pyval * pyval))
| PyObject (r : string).               (* any other object, with its [repr] *)

(** [isinstance(v, (int, float, str, tuple))]; a [bool] is an [int]. *)
Definition isinstance_int_float_str_tuple (v : pyval) : bool :=
  match v with
  | PyBool _ | PyInt _ | PyFloat _ | PyStr _ | PyTuple _ => true
  | PyEmpty | PyNone | PyList _ | PyDict _ | PyObject _ => false
  end.

(** [repr] of a [str]: single quotes, double quotes when the string has
    a single quote and no double quote; the quote, the backslash and what
    does not print are escaped. *)
Definition has_char (c : ascii) (s : string) : bool :=
  existsb (Ascii.eqb c) (list_ascii_of_string s).

Definition str_quote (s : string) : ascii :=
  if has_char squote s && negb (has_char dquote s) then dquote else squote.

Definition hex2 (n : Z) : string :=
  String (hexdigit (n / 16)) (String (hexdigit (n mod 16)) EmptyString).

Definition escape_char (q c : ascii) : string :=
  let n := Z.of_N (N_of_ascii c) in
  if Ascii.eqb c q || Ascii.eqb c backslash then String backslash (str1 c)
  else if n =? 9 then String backslash "t"
  else if n =? 10 then String backslash "n"
  else if n =? 13 then String backslash "r"
  else if (n <? 32) || (n =? 127) then String backslash "x" ++ hex2 n
  else if n <? 127 then str1 c
  else if (n <=? 160) || (n =? 173) then String backslash "x" ++ hex2 n
  else str1 c.

Definition repr_str (s : string) : string :=
  let q := str_quote s in
  String q (String.concat EmptyString
              (List.map (escape_char q) (list_ascii_of_string s)))
  ++ str1 q.

Fixpoint repr (v : pyval) : string :=
  match v with
  | PyEmpty => "<class 'inspect._empty'>"
  | PyNone => "None"
  | PyBool b => if b then "True" else "False"
  | PyInt z => repr_int z
  | PyFloat f => repr_float f
  | PyStr s => repr_str s
  | PyTuple items =>
      match items with
      | [x] => "(" ++ repr x ++ ",)"
      | _ => "(" ++ join ", " (List.map repr items) ++ ")"
      end
  | PyList items => "[" ++ join ", " (List.map repr items) ++ "]"
  | PyDict items =>
      "{" ++ join ", "
               (List.map (fun kv => repr (fst kv) ++ ": " ++ repr (snd kv)) items)
      ++ "}"
  | PyObject r => r
  end.

(** [format(v, '.3f')], the conversion of [f"{v:.3f}"]. *)
Definition format_3f (v : pyval) : result string :=
  match v with
  | PyBool b => OK (format_float_3f (float_of_small_int (if b then 1 else 0)))
  | PyInt z => rbind (float_of_int z) (fun f => OK (format_float_3f f))
  | PyFloat f => OK (format_float_3f f)
  | PyStr _ => Raise ValueError
  | PyEmpty | PyNone | PyTuple _ | PyList _ | PyDict _ | PyObject _ =>
      Raise TypeError
  end.

End Py.

(** ** docs/write_components_doc.py *)
Module Docs.
Import Py.

(** [inspect.signature(f).parameters]: the parameter names with their
    defaults, in declared order; [PyEmpty] stands for no default. *)
Definition signature : Type := list (string * pyval).

(** [cells]: a [dict] from component name to component function, in
    insertion order. A function is kept as what [inspect.signature]
    reads from it. *)
Definition registry : Type := list (string * signature).

(** [d.keys()] *)
Definition keys (d : registry) : list string := List.map fst d.

(** [d[k]] *)
Fixpoint getitem (d : registry) (k : string) : result signature :=
  match d with
  | [] => Raise (KeyError k)
  | (k', v) :: d' => if String.eqb k' k then OK v else getitem d' k
  end.

(** [x in t] for a tuple of [str]. *)
Definition contains (t : list string) (x : string) : bool :=
  existsb (String.eqb x) t.

(** The module constants. *)
Definition skip : gset string :=
  list_to_set
    [ "LIBRARY"; "circuit_names"; "component_factory"; "component_names";
      "container_names"; "component_names_test_ports";
      "component_names_skip_test"; "component_names_skip_test_ports";
      "dataclasses"; "library"; "waveguide_template" ].

Definition skip_plot : list string := ["add_fiber_array_siepic"].
Definition skip_settings : list string := ["flatten"; "safe_cell_names"].

(** The output file and the standard output; a computation reads and
    writes them and returns or raises. *)
Record io : Type := { file : string; stdout : list string }.

Definition M (A : Type) : Type := io -> io * result A.

Definition ret {A} (a : A) : M A := fun st => (st, OK a).

Definition bind {A B} (m : M A) (k : A -> M B) : M B :=
  fun st =>
    match m st with
    | (st', OK a) => k a st'
    | (st', Raise e) => (st', Raise e)
    end.

Definition lift {A} (r : result A) : M A := fun st => (st, r).

(** [f.write(s)] *)
Definition write (s : string) : M unit :=
  fun st => ({| file := file st ++ s; stdout := stdout st |}, OK tt).

(** [print(s)] *)
Definition print (s : string) : M unit :=
  fun st => ({| file := file st; stdout := stdout st ++ [s] |}, OK tt).

Notation "x <- m ;; k" := (bind m (fun x => k))
  (at level 100, m at next level, right associativity).
Notation "m ;;; k" := (bind m (fun _ => k))
  (at level 100, right associativity).

(** [for x in xs: body(x)] *)
Fixpoint for_each {A} (xs : list A) (body : A -> M unit) : M unit :=
  match xs with
  | [] => ret tt
  | x :: xs' => body x ;;; for_each xs' body
  end.

Definition header : string := "

Here are the components available in the PDK


Components
=============================
".

Definition section_autofunction (name : string) : string := "

" ++ name ++ "
----------------------------------------------------

.. autofunction:: ubcpdk.components." ++ name ++ "

".

Definition section_plot (name kwargs : string) : string := "

" ++ name ++ "
----------------------------------------------------

.. autofunction:: ubcpdk.components." ++ name ++ "

.. plot::
  :include-source:

  import ubcpdk

  c = ubcpdk.PDK.get_component(" ++ str1 dquote ++ name ++ str1 dquote ++ ", " ++ kwargs ++ ")
  c.plot()

".

Section Generator.
Variable cells : registry.
Variable skip : gset string.
Variables skip_plot skip_settings : list string.

(** The list comprehension of the keyword arguments. It runs over the
    parameter names and reads each default back from the same mapping:
    here it runs over the entries. *)
Definition kwargs_list (sig : signature) : list string :=
  List.map (fun p => fst p ++ "=" ++ repr (snd p))
    (List.filter
       (fun p => isinstance_int_float_str_tuple (snd p)
                 && negb (contains skip_settings (fst p)))
       sig).

Definition kwargs_of (sig : signature) : string :=
  join ", " (kwargs_list sig).

(** The body of the loop. *)
Definition document (name : string) : M unit :=
  if bool_decide (name ∈ skip) || startswith name "_" then ret tt
  else
    print name ;;;
    sig <- lift (getitem cells name) ;;
    let kwargs := kwargs_of sig in
    if contains skip_plot name then write (section_autofunction name)
    else write (section_plot name kwargs).

Definition main : M unit :=
  write header ;;;
  for_each (sorted (keys cells)) document.

(** The run of the script: the file is opened empty. *)
Definition run : io * result unit :=
  main {| file := EmptyString; stdout := [] |}.

(** The text of the file after the run. *)
Definition output : string := file (fst run).

End Generator.

(** The script as it stands, on a registry. *)
Definition script (cells : registry) : io * result unit :=
  run cells skip skip_plot skip_settings.

(** What a computation appends to the file. *)
Definition written (m : M unit) : string :=
  file (fst (m {| file := EmptyString; stdout := [] |})).

(** [s.split(newline)] *)
Fixpoint split_lines (s : string) : list string :=
  match s with
  | EmptyString => [EmptyString]
  | String c s' =>
      if Ascii.eqb c newline then EmptyString :: split_lines s'
      else match split_lines s' with
           | [] => [str1 c]
           | l :: ls => String c l :: ls
           end
  end.

End Docs.

(** ** The output of the documentation writer, in the words of its
    specification *)
Module DocsSpec.
Import Py Docs.

Definition nl : string := str1 newline.

(** The registry names that get a section, in the order of the sections:
    the keys in lexicographic order, without those of the skip set and
    those that begin with an underscore. *)
Definition gets_section (skip : gset string) (name : string) : bool :=
  negb (bool_decide (name ∈ skip)) && negb (startswith name "_").

Definition documented (cells : registry) (skip : gset string) : list string :=
  List.filter (gets_section skip) (sorted (keys cells)).

Definition rule : string :=
  "----------------------------------------------------".

(** The heading of a section. *)
Definition heading (name : string) : list string := [name; rule].

(** The cross-reference directive. *)
Definition autofunction_directive (name : string) : string :=
  ".. autofunction:: ubcpdk.components." ++ name.

(** The reconstruction call of the example. *)
Definition reconstruction_call (name kwargs : string) : string :=
  "c = ubcpdk.PDK.get_component(" ++ str1 dquote ++ name ++ str1 dquote
  ++ ", " ++ kwargs ++ ")".

(** The example block: the plot directive with the source shown, the
    import, the reconstruction call and the plot. *)
Definition example_block (name kwargs : string) : list string :=
  [ ".. plot::";
    "  :include-source:";
    EmptyString;
    "  import ubcpdk";
    EmptyString;
    "  " ++ reconstruction_call name kwargs;
    "  c.plot()";
    EmptyString ].

(** The lines of a section: two blank lines, the heading, the directive
    and, with a plot, the example block. *)
Definition section_lines (plot : bool) (name kwargs : string) : list string :=
  ([EmptyString; EmptyString] ++ heading name
   ++ [EmptyString; autofunction_directive name; EmptyString]
   ++ (if plot then example_block name kwargs else [])
   ++ [EmptyString])%list.

(** How many times a line stands in a list of lines, a name in a list
    of names. *)
Definition count (x : string) (xs : list string) : nat :=
  List.length (List.filter (String.eqb x) xs).

(** The file read line by line: how many times the heading of [name]
    stands in it, the line of the name with the rule under it. *)
Fixpoint count_headed (name : string) (ls : list string) : nat :=
  match ls with
  | l :: rest =>
      ((match rest with
        | r :: _ => if String.eqb r rule && String.eqb l name then 1 else 0
        | [] => 0
        end) + count_headed name rest)%nat
  | [] => 0%nat
  end.

(** The lines of the header but the last, which is empty. *)
Definition header_open : list string :=
  [ EmptyString; EmptyString;
    "Here are the components available in the PDK";
    EmptyString; EmptyString;
    "Components";
    "=============================" ].

(** The lines of a section between its first and its last, which are
    empty. *)
Definition section_tail (plot : bool) (name kwargs : string) : list string :=
  ([EmptyString] ++ heading name
   ++ [EmptyString; autofunction_directive name; EmptyString]
   ++ (if plot then example_block name kwargs else []))%list.

(** The keyword arguments of the function of a registry name. *)
Definition kwargs_for (cells : registry) (skip_settings : list string)
  (name : string) : string :=
  match getitem cells name with
  | OK sig => kwargs_of skip_settings sig
  | Raise _ => EmptyString
  end.

(** The lines of the file: those of the header, then those of the sections
    of the documented names; the last line of the header is the first of
    the first section, the last of a section is the first of the next. *)
Definition file_lines (cells : registry) (skip : gset string)
  (skip_plot skip_settings : list string) : list string :=
  (header_open
   ++ flat_map
        (fun name =>
           EmptyString
           :: section_tail (negb (contains skip_plot name)) name
                (kwargs_for cells skip_settings name))
        (documented cells skip)
   ++ [EmptyString])%list.

(** A name as a function has one: a letter or an underscore, then letters,
digits and underscores. *)
Definition is_ident_start (c : ascii) : bool :=
let n := Z.of_N (N_of_ascii c) in
((65 <=? n) && (n <=? 90)) || ((97 <=? n) && (n <=? 122)) || (n =? 95).

Definition is_ident_char (c : ascii) : bool :=
let n := Z.of_N (N_of_ascii c) in
is_ident_start c || ((48 <=? n) && (n <=? 57)).

Definition identifier (s : string) : bool :=
match s with
| EmptyString => false
| String c s' => is_ident_start c && forallb is_ident_char (list_ascii_of_string s')
end.

(** A text without a line break. *)
Definition one_line (s : string) : bool := negb (has_char newline s).


(** A keyword argument as the example shows it. *)
Definition render (p : string * pyval) : string :=
  fst p ++ "=" ++ repr (snd p).

(** A default of one of the types int, float, str, tuple. *)
Definition primitive (v : pyval) : Prop :=
  match v with
  | PyBool _ | PyInt _ | PyFloat _ | PyStr _ | PyTuple _ => True
  | _ => False
  end.

End DocsSpec.

(** ** ubc/bend90.py *)
Module Bend90.
Import Py.

(** A layer: the pair of a GDS layer and a datatype. *)
Definition layer : Type := (Z * Z)%type.

(** [ubc.layers.LAYER]: the table is not among these sources; the three
    entries [bend90] reads are parameters. *)
Class Layers : Type := { WG : layer; DEVREC : layer; PORT : layer }.

(** What [pp.c.label(text=, position=, layer=)] builds. *)
Record Label : Type := label {
  text : string;
  position : spec_float * spec_float;
  label_layer : layer
}.

(** A pin marker: the port it marks and the layer it is drawn on. *)
Record Pin : Type := pin { pin_port : string; pin_layer : layer }.

(** The layout library [pp], as far as [bend90] uses it. A cell is
    opaque; it is observed through its bounding-box centre, its ports, its
    label children and its pin markers. *)
Class Layout : Type := {
  cell : Type;
  (** [pp.c.bend_circular(radius=, width=, layer=, layers_cladding=,
      cladding_offset=)] *)
  bend_circular : pyval -> pyval -> layer -> list layer -> Z -> result cell;
  (** [c.x], [c.y] *)
  x : cell -> spec_float;
  y : cell -> spec_float;
  (** [c.add(label)] *)
  add : cell -> Label -> cell;
  (** [add_pins(c, layer=)] *)
  add_pins : cell -> layer -> cell;
  (** What [@pp.autoname] does to the cell a function returns, from the
      function's name and keyword arguments. *)
  autoname : string -> list (string * pyval) -> cell -> cell;
  ports_of : cell -> list string;
  labels_of : cell -> list Label;
  pins_of : cell -> list Pin
}.

(** [v > 0] for a number. *)
Definition gt_zero (v : pyval) : bool :=
  match v with
  | PyBool b => b
  | PyInt z => 0 <? z
  | PyFloat f => SFltb (S754_zero false) f
  | _ => false
  end.


Definition is_digit (c : ascii) : bool :=
  let n := Z.of_N (N_of_ascii c) in (48 <=? n) && (n <=? 57).

Fixpoint all_digits (s : string) : bool :=
  match s with
  | EmptyString => true
  | String c s' => is_digit c && all_digits s'
  end.


Section Generator.
Context {LAYER : Layers} {pp : Layout}.

(** The contract of the library that the properties of [bend90] rest
    on: a bend built from positive numbers has ports and no label;
    [add] appends the label and moves nothing else; [add_pins] draws
    one marker for each port on the layer it is given; naming leaves
    the content alone. *)
Class LayoutContract : Prop := {
  bend_circular_ports : forall radius width ly clad off c,
    bend_circular radius width ly clad off = OK c ->
    gt_zero radius = true -> gt_zero width = true ->
    ports_of c <> [];
  bend_circular_labels : forall radius width ly clad off c,
    bend_circular radius width ly clad off = OK c -> labels_of c = [];
  add_labels_of : forall c l, labels_of (add c l) = (labels_of c ++ [l])%list;
  add_ports_of : forall c l, ports_of (add c l) = ports_of c;
  add_x : forall c l, x (add c l) = x c;
  add_y : forall c l, y (add c l) = y c;
  add_pins_labels_of : forall c ly, labels_of (add_pins c ly) = labels_of c;
  add_pins_pins_of : forall c ly,
    pins_of (add_pins c ly) =
    (pins_of c ++ List.map (fun p => pin p ly) (ports_of c))%list;
  autoname_labels_of : forall f kw c, labels_of (autoname f kw c) = labels_of c;
  autoname_pins_of : forall f kw c, pins_of (autoname f kw c) = pins_of c
}.

(** The list [labels]. *)
Definition labels (radius width : pyval) : result (list string) :=
  rbind (format_3f radius) (fun r =>
  rbind (format_3f width) (fun w =>
  OK [ "Lumerical_INTERCONNECT_library=Design kits/EBeam";
       "Lumerical_INTERCONNECT_component=ebeam_bend_1550";
       "Spice_param:radius=" ++ r ++ "u wg_width=" ++ w ++ "u" ])).

(** [for i, text in enumerate(labels): c.add(pp.c.label(...))], from
    index [i] on. *)
Fixpoint add_labels (c : cell) (i : Z) (texts : list string) : cell :=
  match texts with
  | [] => c
  | t :: rest =>
      let pos := (x c, fadd (y c) (fmul (float_of_small_int i) float_0_1)) in
      add_labels (add c (label t pos DEVREC)) (i + 1) rest
  end.

(** The function under the decorator. *)
Definition bend90_body (radius width : pyval) : result cell :=
  rbind (bend_circular radius width WG [DEVREC] 1) (fun c =>
  rbind (labels radius width) (fun ls =>
  let c := add_labels c 0 ls in
  let c := add_pins c PORT in
  OK c)).

(** [bend90(radius=radius, width=width)] *)
Definition bend90 (radius width : pyval) : result cell :=
  rbind (bend90_body radius width) (fun c =>
  OK (autoname "bend90" [("radius", radius); ("width", width)] c)).

End Generator.

(** The defaults of [bend90], and its signature as the documentation
    writer reads it. *)
Definition default_radius : pyval := PyInt 10.
Definition default_width : pyval := PyFloat float_0_5.
Definition bend90_signature : Docs.signature :=
  [("radius", default_radius); ("width", default_width)].

(** A small layout library that meets the contract: a cell is a record
    of what is observed of it. *)
Module Toy.
Record toy_cell : Type := {
  toy_name : string;
  toy_x : spec_float;
  toy_y : spec_float;
  toy_ports : list string;
  toy_labels : list Label;
  toy_pins : list Pin
}.

Definition toy_bend (radius width : pyval) (ly : layer) (clad : list layer)
  (off : Z) : result toy_cell :=
  if gt_zero radius && gt_zero width then
    OK {| toy_name := "bend_circular";
          toy_x := float_of_small_int 5; toy_y := float_of_small_int 5;
          toy_ports := ["W0"; "N0"]; toy_labels := []; toy_pins := [] |}
  else Raise ValueError.

#[export] Instance toy_layers : Layers :=
  {| WG := (1, 0); DEVREC := (68, 0); PORT := (1, 10) |}.

#[export] Instance toy_layout : Layout := {|
  cell := toy_cell;
  bend_circular := toy_bend;
  x := toy_x;
  y := toy_y;
  add := fun c l =>
    {| toy_name := toy_name c; toy_x := toy_x c; toy_y := toy_y c;
       toy_ports := toy_ports c; toy_labels := (toy_labels c ++ [l])%list;
       toy_pins := toy_pins c |};
  add_pins := fun c ly =>
    {| toy_name := toy_name c; toy_x := toy_x c; toy_y := toy_y c;
       toy_ports := toy_ports c; toy_labels := toy_labels c;
       toy_pins :=
         (toy_pins c ++ List.map (fun p => pin p ly) (toy_ports c))%list |};
  autoname := fun f kw c =>
    {| toy_name := f; toy_x := toy_x c; toy_y := toy_y c;
       toy_ports := toy_ports c; toy_labels := toy_labels c;
       toy_pins := toy_pins c |};
  ports_of := toy_ports;
  labels_of := toy_labels;
  pins_of := toy_pins
|}.
End Toy.

End Bend90.

(** ** Sample inputs *)
Module Examples.
Import Py Docs.

(** The registry of the example scenario: [bend90] alone. *)
Definition bend90_only : registry := [("bend90", Bend90.bend90_signature)].

(** A registry with a skipped name, a private name, a name without a
    plot, and defaults of many types. *)
Definition sample_cells : registry :=
  [ ("waveguide",
     [ ("length", PyInt 10);
       ("width", PyFloat float_0_5);
       ("layer", PyTuple [PyInt 1; PyInt 0]);
       ("name", PyStr "wg");
       ("with_pins", PyBool true);
       ("flatten", PyBool false);
       ("cross_section", PyNone);
       ("bbox_layers", PyList []);
       ("settings", PyDict []);
       ("component", PyEmpty) ]);
    ("bend90", Bend90.bend90_signature);
    ("_private", [("n", PyInt 1)]);
    ("library", []);
    ("add_fiber_array_siepic", [("component", PyEmpty); ("gc_port_name", PyStr "W0")]) ].

(** The same registry, filled in another order. *)
Definition sample_cells_reordered : registry :=
  match sample_cells with
  | a :: b :: rest => b :: a :: rest
  | other => other
  end.

End Examples.

(** ** Further definitions: values as data, the script run of bend90 *)
Module More.
Import Py Docs.

(** A value whose [repr] is fixed by the model on one line: a number, a
    bool, a str, None, the empty default, a tuple, list or dict of such
    values; another object when its own [repr] is one line. *)
Fixpoint plain (v : pyval) : bool :=
  match v with
  | PyEmpty | PyNone | PyBool _ | PyInt _ | PyFloat _ | PyStr _ => true
  | PyTuple items => forallb plain items
  | PyList items => forallb plain items
  | PyDict items => forallb (fun kv => plain (fst kv) && plain (snd kv)) items
  | PyObject r => DocsSpec.one_line r
  end.

(** A signature with names of parameters and plain defaults. *)
Definition plain_signature (sig : signature) : bool :=
  forallb (fun p => DocsSpec.identifier (fst p) && plain (snd p)) sig.


Section Main.
Context {LAYER : Bend90.Layers} {pp : Bend90.Layout}.

(** The block under [if __name__ == "__main__"]: the cell of [bend90()],
    which [pp.show] is given. The call passes no keyword argument, so the
    defaults are used and the decorator sees none. *)
Definition main : result Bend90.cell :=
  rbind (Bend90.bend90_body Bend90.default_radius Bend90.default_width)
    (fun c => OK (Bend90.autoname "bend90" [] c)).

End Main.

(** A registry whose names are all left out. *)
Definition skipped_cells : registry :=
  [ ("library", []); ("_private", [("n", PyInt 1)]);
    ("component_factory", [("name", PyStr "x")]) ].

(** A default with a line break in it. *)
Definition two_line_default : signature :=
  [("name", PyStr ("a" ++ DocsSpec.nl ++ "b")); ("layer", PyTuple [PyInt 1; PyInt 0])].

(** A function all of whose parameters are without a default. *)
Definition ring_only : registry := [("ring", [("component", PyEmpty)])].


End More.

(** * Part II: properties *)

Import Py.

(** ** The order on [str] and [sorted] *)
Section StrOrder.

Lemma str_compare_refl (s : string) : String.compare s s = Eq.
Proof.
  induction s as [|c s IH]; simpl; [reflexivity|].
  unfold Ascii.compare. rewrite N.compare_refl. exact IH.
Qed.

Lemma str_le_cases (a b : string) : str_le a b <-> str_lt a b \/ a = b.
Proof.
  unfold String.le, str_lt, String.leb, String.ltb.
  destruct (String.compare a b) eqn:E; simpl.
  - split; [intros _; right; apply String.compare_eq_iff; exact E | auto].
  - split; auto.
  - split; [intros [] | intros [[] | ->]].
    rewrite str_compare_refl in E. discriminate.
Qed.

Lemma str_lt_irrefl (a : string) : ~ str_lt a a.
Proof. unfold str_lt, String.ltb. rewrite str_compare_refl. simpl. auto. Qed.

Lemma str_lt_iff (a b : string) : str_lt a b <-> str_le a b /\ a <> b.
Proof.
  split.
  - intros H. split; [apply str_le_cases; auto|].
    intros ->. exact (str_lt_irrefl _ H).
  - intros [H Hne]. apply str_le_cases in H. destruct H; congruence.
Qed.

Lemma sorted_Sorted (xs : list string) : Sorted str_le (sorted xs).
Proof. apply Sorted_merge_sort. apply _. Qed.

Lemma sorted_Permutation (xs : list string) : sorted xs ≡ₚ xs.
Proof. apply merge_sort_Permutation. Qed.

(** [sorted] sees the elements of its argument, not their order. *)
Lemma sorted_of_Permutation (xs ys : list string) :
  xs ≡ₚ ys -> sorted xs = sorted ys.
Proof.
  intros H. apply (Sorted_unique str_le); try apply sorted_Sorted.
  rewrite !sorted_Permutation. exact H.
Qed.

Lemma StronglySorted_le_lt (xs : list string) :
  NoDup xs -> StronglySorted str_le xs -> StronglySorted str_lt xs.
Proof.
  intros Hnd Hs. induction Hs as [|x xs Hs IH Hall]; constructor.
  - apply IH. apply NoDup_cons in Hnd. tauto.
  - apply NoDup_cons in Hnd as [Hx _].
    rewrite Forall_forall in *. intros z Hz. apply str_lt_iff. split.
    + apply Hall, Hz.
    + intros ->. apply Hx. exact Hz.
Qed.

(** Distinct names come out of [sorted] in strictly increasing order. *)
Lemma sorted_strict (xs : list string) :
  NoDup xs -> StronglySorted str_lt (sorted xs).
Proof.
  intros Hnd. apply StronglySorted_le_lt.
  - rewrite sorted_Permutation. exact Hnd.
  - apply StronglySorted_merge_sort; apply _.
Qed.

End StrOrder.

(** ** The runtime on sample values *)
Section RuntimeSamples.

Example sorted_sample :
  sorted ["b"; "a"; "_x"; "B"; "aa"; "ab"] = ["B"; "_x"; "a"; "aa"; "ab"; "b"].
Proof. vm_compute. reflexivity. Qed.

Example repr_float_samples :
  repr_float float_0_5 = "0.5"
  /\ repr_float float_0_1 = "0.1"
  /\ repr_float (fmul (float_of_small_int 3) float_0_1) = "0.30000000000000004"
  /\ repr_float (float_of_small_int (10 ^ 15)) = "1000000000000000.0"
  /\ repr_float (float_of_small_int (10 ^ 16)) = "1e+16"
  /\ repr_float (float_of_small_int (10 ^ 23)) = "1e+23"
  /\ repr_float (S754_finite true 1 (-1074)) = "-5e-324"
  /\ repr_float (S754_zero true) = "-0.0".
Proof. vm_compute. repeat split. Qed.

Example float_literals :
  float_0_1 = SFdiv prec emax (float_of_small_int 1) (float_of_small_int 10)
  /\ float_0_2 = SFdiv prec emax (float_of_small_int 2) (float_of_small_int 10)
  /\ float_0_5 = SFdiv prec emax (float_of_small_int 1) (float_of_small_int 2).
Proof. vm_compute. repeat split. Qed.

Example format_3f_samples :
  format_3f (PyInt 10) = OK "10.000"
  /\ format_3f (PyFloat float_0_5) = OK "0.500"
  /\ format_3f (PyBool true) = OK "1.000"
  /\ format_3f (PyFloat (S754_finite false 1 (-4))) = OK "0.062"
  /\ format_3f (PyFloat (S754_finite true 1 (-20))) = OK "-0.000"
  /\ format_3f (PyInt (2 ^ 53 + 1)) = OK "9007199254740992.000"
  /\ format_3f (PyInt (10 ^ 400)) = Raise OverflowError
  /\ format_3f (PyStr "10") = Raise ValueError
  /\ format_3f PyNone = Raise TypeError.
Proof. vm_compute. repeat split. Qed.

Example repr_samples :
  repr (PyTuple [PyInt 1; PyInt 0]) = "(1, 0)"
  /\ repr (PyTuple [PyFloat float_0_5]) = "(0.5,)"
  /\ repr (PyTuple []) = "()"
  /\ repr (PyStr "wg") = "'wg'"
  /\ repr (PyStr "it's") = String dquote ("it's" ++ str1 dquote)
  /\ repr (PyStr (String newline "a")) = String squote (String backslash "na'")
  /\ repr (PyBool true) = "True"
  /\ repr (PyInt (-12)) = "-12".
Proof. vm_compute. repeat split. Qed.

End RuntimeSamples.

(** ** Strings *)
Section StringFacts.

Lemma str_app_cons (c : ascii) (s t : string) :
  String c s ++ t = String c (s ++ t).
Proof. reflexivity. Qed.

Lemma str_app_nil_r (s : string) : s ++ EmptyString = s.
Proof.
  induction s as [|c s IH]; [reflexivity|].
  rewrite str_app_cons, IH. reflexivity.
Qed.

Lemma str_app_assoc (s t u : string) : (s ++ t) ++ u = s ++ t ++ u.
Proof.
  induction s as [|c s IH]; [reflexivity|].
  rewrite !str_app_cons, IH. reflexivity.
Qed.

(** Joining on the empty string is concatenation. *)
Lemma concat_empty_cons (s : string) (ss : list string) :
  String.concat EmptyString (s :: ss) = s ++ String.concat EmptyString ss.
Proof.
  destruct ss as [|t ss]; simpl.
  - rewrite str_app_nil_r. reflexivity.
  - reflexivity.
Qed.

Lemma str_length_app (s t : string) :
  String.length (s ++ t) = (String.length s + String.length t)%nat.
Proof.
  induction s as [|c s IH]; [reflexivity|].
  rewrite str_app_cons. simpl. rewrite IH. reflexivity.
Qed.

End StringFacts.

(** ** The documentation writer *)
Section DocsFacts.
Import Docs DocsSpec.

Variable cells : registry.
Variable skip : gset string.
Variables skip_plot skip_settings : list string.

Abbreviation document := (Docs.document cells skip skip_plot skip_settings).
Abbreviation kwargs_of := (Docs.kwargs_of skip_settings).

(** [cells[name]] returns for every key of [cells]. *)
Lemma getitem_keys (name : string) :
  In name (keys cells) -> exists sig, getitem cells name = OK sig.
Proof.
  unfold keys. induction cells as [|[k v] d IH]; simpl; [tauto|].
  intros [->|H].
  - rewrite String.eqb_refl. eauto.
  - destruct (String.eqb k name); eauto.
Qed.

Lemma getitem_In (name : string) (sig : signature) :
  getitem cells name = OK sig -> In (name, sig) cells.
Proof.
  induction cells as [|[k v] d IH]; simpl; [discriminate|].
  destruct (String.eqb_spec k name) as [->|Hne].
  - intros [= ->]. auto.
  - auto.
Qed.

(** A name without a section: the loop goes on to the next one. *)
Lemma document_continue (name : string) (st : io) :
  gets_section skip name = false -> document name st = (st, OK tt).
Proof.
  unfold gets_section, Docs.document. intros H.
  rewrite <- negb_orb in H. apply negb_false_iff in H. rewrite H.
  reflexivity.
Qed.

(** A name with a section: it is printed and its section is written. *)
Lemma document_section (name : string) (sig : signature) (st : io) :
  gets_section skip name = true ->
  getitem cells name = OK sig ->
  document name st =
  ({| file := file st
              ++ (if contains skip_plot name then section_autofunction name
                  else section_plot name (kwargs_of sig));
      stdout := (stdout st ++ [name])%list |}, OK tt).
Proof.
  unfold gets_section, Docs.document. intros H Hsig.
  rewrite <- negb_orb in H. apply negb_true_iff in H. rewrite H.
  unfold bind, print, lift, write. simpl. rewrite Hsig.
  destruct (contains skip_plot name); reflexivity.
Qed.

Lemma written_continue (name : string) :
  gets_section skip name = false -> written (document name) = EmptyString.
Proof. intros H. unfold written. rewrite document_continue; auto. Qed.

Lemma written_section (name : string) (sig : signature) :
  gets_section skip name = true ->
  getitem cells name = OK sig ->
  written (document name) =
  if contains skip_plot name then section_autofunction name
  else section_plot name (kwargs_of sig).
Proof.
  intros H Hsig. unfold written.
  rewrite (document_section name sig); auto.
Qed.

Lemma document_written (name : string) (st : io) :
  In name (keys cells) ->
  document name st =
  ({| file := file st ++ written (document name);
      stdout := (stdout st ++ if gets_section skip name then [name] else [])%list |},
   OK tt).
Proof.
  intros Hin. destruct (getitem_keys name Hin) as [sig Hsig].
  destruct (gets_section skip name) eqn:H.
  - rewrite (written_section name sig H Hsig).
    apply document_section; assumption.
  - rewrite (written_continue name H), str_app_nil_r, app_nil_r.
    destruct st. apply document_continue. exact H.
Qed.

(** The loop over a list of keys. *)
Lemma for_each_document (names : list string) (st : io) :
  (forall name, In name names -> In name (keys cells)) ->
  for_each names document st =
  ({| file := file st
              ++ String.concat EmptyString
                   (List.map (fun name => written (document name))
                      (List.filter (gets_section skip) names));
      stdout := (stdout st ++ List.filter (gets_section skip) names)%list |},
   OK tt).
Proof.
  revert st. induction names as [|name names IH]; intros st Hin.
  - simpl. rewrite str_app_nil_r, app_nil_r. destruct st. reflexivity.
  - simpl for_each. unfold bind at 1.
    rewrite document_written by (apply Hin; left; reflexivity).
    rewrite IH by (intros n Hn; apply Hin; right; exact Hn).
    simpl. destruct (gets_section skip name) eqn:H.
    + simpl List.map. rewrite concat_empty_cons, str_app_assoc, <- app_assoc.
      reflexivity.
    + rewrite (written_continue name H), str_app_nil_r, app_nil_r.
      reflexivity.
Qed.

(** The run: the header, then the sections of the documented names in
    their order; every documented name is printed; nothing is raised. *)
Lemma run_documented :
  run cells skip skip_plot skip_settings =
  ({| file := header
              ++ String.concat EmptyString
                   (List.map (fun name => written (document name))
                      (documented cells skip));
      stdout := documented cells skip |}, OK tt).
Proof.
  unfold run, main. unfold bind at 1. unfold write at 1. simpl file.
  rewrite for_each_document.
  - reflexivity.
  - intros name Hn. apply (Permutation_in name (sorted_Permutation _)).
    exact Hn.
Qed.

(** The two templates, line by line. *)
Lemma section_autofunction_lines (name kwargs : string) :
  section_autofunction name = join nl (section_lines false name kwargs).
Proof. vm_compute. reflexivity. Qed.

Lemma section_plot_lines (name kwargs : string) :
  section_plot name kwargs = join nl (section_lines true name kwargs).
Proof.
  cbv -[String.append]. rewrite !str_app_assoc. reflexivity.
Qed.

Lemma StronglySorted_filter {A} (R : relation A) (f : A -> bool) (l : list A) :
  StronglySorted R l -> StronglySorted R (List.filter f l).
Proof.
  induction 1 as [|a l Hs IH Hall]; simpl; [constructor|].
  destruct (f a); [|exact IH].
  constructor; [exact IH|].
  rewrite List.Forall_forall in *. intros z Hz. apply Hall.
  apply filter_In in Hz. tauto.
Qed.

Lemma documented_In (name : string) :
  In name (documented cells skip) <->
  In name (keys cells) /\ (name ∉ skip) /\ startswith name "_" = false.
Proof.
  unfold documented, gets_section. rewrite filter_In.
  rewrite andb_true_iff, !negb_true_iff, bool_decide_eq_false.
  split; intros [H1 H2]; (split; [|exact H2]).
  - apply (Permutation_in name (sorted_Permutation _)). exact H1.
  - apply (Permutation_in name (Permutation_sym (sorted_Permutation _))).
    exact H1.
Qed.

Lemma documented_NoDup :
  NoDup (keys cells) -> NoDup (documented cells skip).
Proof.
  intros H. apply NoDup_ListNoDup, List.NoDup_filter, NoDup_ListNoDup.
  rewrite sorted_Permutation. exact H.
Qed.

Lemma documented_sorted :
  NoDup (keys cells) -> StronglySorted str_lt (documented cells skip).
Proof. intros H. apply StronglySorted_filter, sorted_strict, H. Qed.

(** The section of a documented name. *)
Lemma written_documented (name : string) :
  In name (documented cells skip) ->
  exists sig,
    getitem cells name = OK sig /\
    written (document name) =
    join nl (section_lines (negb (contains skip_plot name)) name (kwargs_of sig)).
Proof.
  intros Hin. apply filter_In in Hin as [Hin Hs].
  apply (Permutation_in name (sorted_Permutation _)) in Hin.
  destruct (getitem_keys name Hin) as [sig Hsig].
  exists sig. split; [exact Hsig|].
  rewrite (written_section name sig Hs Hsig).
  destruct (contains skip_plot name); simpl negb.
  - apply section_autofunction_lines.
  - apply section_plot_lines.
Qed.

End DocsFacts.

(** ** The file, line by line *)
Section DocsLines.
Import Docs DocsSpec.

Lemma split_lines_not_nil (s : string) : split_lines s <> [].
Proof.
induction s as [|c s IH]; simpl; [discriminate|].
destruct (Ascii.eqb c newline); [discriminate|].
destruct (split_lines s); discriminate.
Qed.

Lemma split_lines_app_newline (s t : string) :
  split_lines (s ++ String newline t) = (split_lines s ++ split_lines t)%list.
Proof.
induction s as [|c s IH].
- reflexivity.
- rewrite str_app_cons. simpl. rewrite IH.
  destruct (Ascii.eqb c newline); [reflexivity|].
  pose proof (split_lines_not_nil s) as Hs.
  destruct (split_lines s) as [|l ls]; [congruence|reflexivity].
Qed.

Lemma one_line_cons (c : ascii) (s : string) :
  one_line (String c s) = negb (Ascii.eqb newline c) && one_line s.
Proof. unfold one_line, has_char. simpl. apply negb_orb. Qed.

Lemma one_line_app (s t : string) :
  one_line (s ++ t) = one_line s && one_line t.
Proof.
induction s as [|c s IH]; [reflexivity|].
rewrite str_app_cons, !one_line_cons, IH. apply andb_assoc.
Qed.

Lemma split_lines_one_line (s : string) :
  one_line s = true -> split_lines s = [s].
Proof.
induction s as [|c s IH]; [reflexivity|].
rewrite one_line_cons. intros H. apply andb_true_iff in H as [Hc Hs].
simpl. rewrite (IH Hs).
rewrite Ascii.eqb_sym. apply negb_true_iff in Hc. rewrite Hc. reflexivity.
Qed.

(** Lines without a line break come back from the text they are joined to. *)
Lemma split_lines_join (ls : list string) :
  ls <> [] -> forallb one_line ls = true ->
  split_lines (join nl ls) = ls.
Proof.
induction ls as [|l ls IH]; [congruence|]. intros _ H.
simpl in H. apply andb_true_iff in H as [Hl Hls].
destruct ls as [|l' ls'].
- simpl. apply split_lines_one_line, Hl.
- change (join nl (l :: l' :: ls')) with (l ++ String newline (join nl (l' :: ls'))).
  rewrite split_lines_app_newline, split_lines_one_line by exact Hl.
  rewrite IH by (congruence || exact Hls). reflexivity.
Qed.

Lemma join_app (xs ys : list string) :
  xs <> [] -> ys <> [] ->
  join nl (xs ++ ys) = join nl xs ++ nl ++ join nl ys.
Proof.
induction xs as [|x xs IH]; [congruence|]. intros _ Hys.
destruct xs as [|x' xs'].
- destruct ys; [congruence|reflexivity].
- change (join nl ((x :: x' :: xs') ++ ys))
    with (x ++ nl ++ join nl ((x' :: xs') ++ ys)).
  rewrite IH by (congruence || exact Hys).
  change (join nl (x :: x' :: xs')) with (x ++ nl ++ join nl (x' :: xs')).
  rewrite !str_app_assoc. reflexivity.
Qed.

(** Texts that end and begin with an empty line, put one after the other. *)
Lemma join_blank_app (xs ys : list string) :
  xs <> [] ->
  join nl (xs ++ [EmptyString]) ++ join nl (EmptyString :: ys ++ [EmptyString])
  = join nl ((xs ++ EmptyString :: ys) ++ [EmptyString]).
Proof.
intros Hxs.
rewrite (join_app (xs ++ EmptyString :: ys) [EmptyString])
  by (try discriminate; destruct xs; discriminate).
rewrite (join_app xs (EmptyString :: ys)) by (discriminate || exact Hxs).
rewrite (join_app xs [EmptyString]) by (discriminate || exact Hxs).
change (EmptyString :: ys ++ [EmptyString])
  with ([EmptyString] ++ (ys ++ [EmptyString]))%list.
destruct ys as [|y ys].
- simpl. rewrite !str_app_assoc. reflexivity.
- rewrite (join_app [EmptyString] ((y :: ys) ++ [EmptyString]))
    by (discriminate || (destruct ys; discriminate)).
  rewrite (join_app (y :: ys) [EmptyString]) by discriminate.
  change (EmptyString :: y :: ys) with ([EmptyString] ++ (y :: ys))%list.
  rewrite (join_app [EmptyString] (y :: ys)) by discriminate.
  simpl join. rewrite !str_app_assoc. reflexivity.
Qed.

(** The header and the sections put one after the other, as lines. *)
Lemma concat_sections (tail : string -> list string) (names : list string)
  (pre : list string) :
  pre <> [] ->
  join nl (pre ++ [EmptyString])
  ++ String.concat EmptyString
       (List.map (fun n => join nl (EmptyString :: tail n ++ [EmptyString])) names)
  = join nl ((pre ++ flat_map (fun n => EmptyString :: tail n) names)
             ++ [EmptyString]).
Proof.
revert pre. induction names as [|n names IH]; intros pre Hpre.
- simpl. rewrite str_app_nil_r, app_nil_r. reflexivity.
- cbn [List.map flat_map]. rewrite concat_empty_cons, <- str_app_assoc.
  rewrite join_blank_app by exact Hpre.
  rewrite IH by (destruct pre; discriminate).
  rewrite <- (app_assoc pre). reflexivity.
Qed.

Lemma count_app (x : string) (xs ys : list string) :
  count x (xs ++ ys) = (count x xs + count x ys)%nat.
Proof. unfold count. rewrite List.filter_app, List.length_app. reflexivity. Qed.

Lemma count_NoDup (x : string) (xs : list string) :
  NoDup xs -> In x xs -> count x xs = 1%nat.
Proof.
  unfold count. induction xs as [|y xs IH]; simpl; [tauto|].
  intros Hnd Hin. apply NoDup_cons in Hnd as [Hy Hnd].
  destruct (String.eqb_spec x y) as [->|Hne].
  - simpl. f_equal. clear IH Hnd Hin. induction xs as [|z xs IH]; [reflexivity|].
    simpl. apply not_elem_of_cons in Hy as [Hyz Hy].
    destruct (String.eqb_spec y z); [congruence|]. apply IH, Hy.
  - destruct Hin as [->|Hin]; [congruence|]. apply IH; assumption.
Qed.

Lemma count_cons (x y : string) (ys : list string) :
  count x (y :: ys) = ((if String.eqb x y then 1 else 0) + count x ys)%nat.
Proof. unfold count. simpl. destruct (String.eqb x y); reflexivity. Qed.

Lemma count_headed_split (x : string) (xs ys : list string) :
  count_headed x (xs ++ EmptyString :: ys)
  = (count_headed x (xs ++ [EmptyString]) + count_headed x (EmptyString :: ys))%nat.
Proof.
induction xs as [|a xs IH]; [reflexivity|].
destruct xs as [|a' xs'].
- reflexivity.
- change (count_headed x ((a :: a' :: xs') ++ EmptyString :: ys))
    with ((if String.eqb a' rule && String.eqb a x then 1 else 0)
          + count_headed x ((a' :: xs') ++ EmptyString :: ys))%nat.
  rewrite IH.
  change (count_headed x ((a :: a' :: xs') ++ [EmptyString]))
    with ((if String.eqb a' rule && String.eqb a x then 1 else 0)
          + count_headed x ((a' :: xs') ++ [EmptyString]))%nat.
  lia.
Qed.

(** Names of functions. *)
Lemma identifier_start (s : string) :
  identifier s = true ->
  exists c s', s = String c s' /\ is_ident_start c = true.
Proof.
destruct s as [|c s']; simpl; [discriminate|].
intros H. apply andb_true_iff in H as [H _]. eauto.
Qed.

Lemma identifier_one_line (s : string) : identifier s = true -> one_line s = true.
Proof.
assert (Hc : forall c, is_ident_char c = true -> Ascii.eqb newline c = false).
{ intros c Hc. destruct (Ascii.eqb_spec newline c) as [<-|]; [discriminate|reflexivity]. }
destruct s as [|c s']; simpl; [discriminate|].
intros H. apply andb_true_iff in H as [H1 H2].
rewrite one_line_cons. rewrite Hc by (unfold is_ident_char; rewrite H1; reflexivity).
simpl. clear H1. induction s' as [|d s' IH]; [reflexivity|].
simpl in H2. apply andb_true_iff in H2 as [Hd H2].
rewrite one_line_cons, (Hc d Hd), (IH H2). reflexivity.
Qed.

Lemma identifier_not_rule (s : string) :
  identifier s = true -> String.eqb s rule = false.
Proof.
intros H. destruct (identifier_start s H) as (c & s' & -> & Hc).
apply String.eqb_neq. intros [= -> _]. discriminate.
Qed.

Lemma identifier_not_directive (s x : string) :
  identifier s = true -> String.eqb (autofunction_directive x) s = false.
Proof.
intros H. destruct (identifier_start s H) as (c & s' & -> & Hc).
apply String.eqb_neq. intros [= <- _]. discriminate.
Qed.

Lemma eqb_directive (a b : string) :
  String.eqb (autofunction_directive a) (autofunction_directive b)
  = String.eqb a b.
Proof.
destruct (String.eqb_spec a b) as [->|Hne].
- apply String.eqb_refl.
- apply String.eqb_neq. intros H. apply Hne.
  unfold autofunction_directive in H.
  exact (String.app_inj _ _ _ H).
Qed.

(** A section has the directive and the heading of its own name, once
    each, and of no other name. *)
Lemma section_count_directive (x n kwargs : string) (plot : bool) :
  identifier n = true ->
  count (autofunction_directive x) (EmptyString :: section_tail plot n kwargs)
  = if String.eqb x n then 1%nat else 0%nat.
Proof.
intros Hn. unfold count, section_tail, heading, example_block.
destruct plot; cbn [List.filter List.app];
  rewrite (identifier_not_directive n x Hn), eqb_directive;
  destruct (String.eqb x n); reflexivity.
Qed.

Lemma section_count_headed (x n kwargs : string) (plot : bool) :
  identifier n = true ->
  count_headed x ((EmptyString :: section_tail plot n kwargs) ++ [EmptyString])
  = if String.eqb x n then 1%nat else 0%nat.
Proof.
intros Hn. unfold section_tail, heading, example_block.
rewrite (String.eqb_sym x n).
destruct plot; cbn [count_headed List.app];
  rewrite (identifier_not_rule n Hn);
  destruct (String.eqb n x); reflexivity.
Qed.

Variable cells : registry.
Variable skip : gset string.
Variables skip_plot skip_settings : list string.

Abbreviation tail_of :=
  (fun name =>
     section_tail (negb (contains skip_plot name)) name
       (kwargs_for cells skip_settings name)).

Lemma flat_count_directive (x : string) (names : list string) :
  forallb identifier names = true ->
  count (autofunction_directive x)
    (flat_map (fun n => EmptyString :: tail_of n) names)
  = count x names.
Proof.
induction names as [|n names IH]; [reflexivity|].
intros H. simpl in H. apply andb_true_iff in H as [Hn H].
cbn [flat_map]. rewrite count_app, (IH H), (count_cons x n names).
rewrite (section_count_directive x n _ _ Hn). reflexivity.
Qed.

Lemma flat_count_headed (x : string) (names : list string) :
  forallb identifier names = true ->
  count_headed x
    (flat_map (fun n => EmptyString :: tail_of n) names ++ [EmptyString])
  = count x names.
Proof.
induction names as [|n names IH]; [reflexivity|].
intros H. simpl in H. apply andb_true_iff in H as [Hn H].
cbn [flat_map]. rewrite <- app_assoc.
assert (Hb : exists B,
           (flat_map (fun n => EmptyString :: tail_of n) names ++ [EmptyString])%list
           = EmptyString :: B).
{ destruct names; simpl; eauto. }
destruct Hb as [B HB]. rewrite HB, count_headed_split, <- HB.
rewrite (IH H), (count_cons x n names).
rewrite (section_count_headed x n _ _ Hn). reflexivity.
Qed.

(** The text of the file is its lines, joined. *)
Lemma output_file_lines :
  output cells skip skip_plot skip_settings
  = join nl (file_lines cells skip skip_plot skip_settings).
Proof.
unfold output. rewrite run_documented. simpl file.
rewrite (map_ext_in _ (fun n => join nl (EmptyString :: tail_of n ++ [EmptyString]))).
- change header with (join nl (header_open ++ [EmptyString])).
  rewrite concat_sections by discriminate.
  unfold file_lines. rewrite <- app_assoc. reflexivity.
- intros n Hn.
  destruct (written_documented cells skip skip_plot skip_settings n Hn)
    as [sig [Hsig Hw]].
  rewrite Hw. unfold kwargs_for. rewrite Hsig. reflexivity.
Qed.

Hypothesis names_are_identifiers : forallb identifier (keys cells) = true.
Hypothesis kwargs_are_one_line : forall name sig,
  In (name, sig) cells -> one_line (kwargs_of skip_settings sig) = true.

Lemma documented_identifiers :
  forallb identifier (documented cells skip) = true.
Proof.
apply forallb_forall. intros n Hn.
apply documented_In in Hn as [Hn _].
rewrite forallb_forall in names_are_identifiers. auto.
Qed.

Lemma kwargs_for_one_line (name : string) :
  one_line (kwargs_for cells skip_settings name) = true.
Proof.
unfold kwargs_for. destruct (getitem cells name) as [sig|] eqn:E; [|reflexivity].
apply (kwargs_are_one_line name). apply getitem_In. exact E.
Qed.

Lemma section_one_line (n kwargs : string) (plot : bool) :
  one_line n = true -> one_line kwargs = true ->
  forallb one_line (EmptyString :: section_tail plot n kwargs) = true.
Proof.
intros Hn Hk.
unfold section_tail, heading, example_block, autofunction_directive,
  reconstruction_call.
destruct plot; cbn [forallb List.app];
  rewrite ?one_line_app, ?Hn, ?Hk; reflexivity.
Qed.

Lemma file_lines_one_line :
  forallb one_line (file_lines cells skip skip_plot skip_settings) = true.
Proof.
unfold file_lines. rewrite !forallb_app.
apply andb_true_iff. split; [reflexivity|].
apply andb_true_iff. split; [|reflexivity].
pose proof documented_identifiers as H.
induction (documented cells skip) as [|n names IH]; [reflexivity|].
simpl in H. apply andb_true_iff in H as [Hn H].
cbn [flat_map]. rewrite forallb_app, (IH H), andb_true_r.
apply section_one_line.
- apply identifier_one_line, Hn.
- apply kwargs_for_one_line.
Qed.

(** Read line by line, the file is [file_lines]. *)
Lemma split_lines_output :
  split_lines (output cells skip skip_plot skip_settings)
  = file_lines cells skip skip_plot skip_settings.
Proof.
rewrite output_file_lines. apply split_lines_join.
- discriminate.
- apply file_lines_one_line.
Qed.

(** In the lines of the file, the directive to a documented name stands
    once, and its heading stands once. *)
Lemma output_line_counts (name : string) :
  NoDup (keys cells) ->
  In name (documented cells skip) ->
  count (autofunction_directive name)
    (split_lines (output cells skip skip_plot skip_settings)) = 1%nat
  /\ count_headed name
       (split_lines (output cells skip skip_plot skip_settings)) = 1%nat.
Proof.
intros Hnd Hin. rewrite split_lines_output. unfold file_lines.
pose proof (count_NoDup name _ (documented_NoDup cells skip Hnd) Hin) as Hone.
split.
- rewrite !count_app, flat_count_directive by apply documented_identifiers.
  rewrite Hone. reflexivity.
- assert (Hb : exists B,
             (flat_map (fun n => EmptyString :: tail_of n) (documented cells skip)
              ++ [EmptyString])%list = EmptyString :: B).
  { destruct (documented cells skip); simpl; eauto. }
  destruct Hb as [B HB]. rewrite HB, count_headed_split, <- HB.
  rewrite flat_count_headed by apply documented_identifiers.
  rewrite Hone. reflexivity.
Qed.

End DocsLines.

(** ** The claims on the documentation writer *)
Section DocsClaims.
Import Docs DocsSpec.

Variable cells : registry.
Variable skip : gset string.
Variables skip_plot skip_settings : list string.

Abbreviation document := (Docs.document cells skip skip_plot skip_settings).

Lemma name_not_directive (name : string) : name <> autofunction_directive name.
Proof.
  intros H. apply (f_equal String.length) in H.
  unfold autofunction_directive in H. rewrite str_length_app in H.
  simpl in H. lia.
Qed.

(** A section has one line that is the directive to its name. *)
Lemma section_lines_directive (plot : bool) (name kwargs : string) :
  count (autofunction_directive name) (section_lines plot name kwargs) = 1%nat.
Proof.
  pose proof (name_not_directive name) as Hname.
  apply not_eq_sym, String.eqb_neq in Hname.
  unfold count, section_lines, heading, example_block.
  destruct plot; cbn [List.filter List.app];
    rewrite Hname, String.eqb_refl; reflexivity.
Qed.

(** C1: for every registry name that is not in the skip set and does not
    begin with an underscore, the output file has exactly one section
    headed by that name, with exactly one autofunction directive, which
    refers to that name; the sections stand in the lexicographic order of
    the names. The file is the header followed by the sections of the
    names of [documented cells skip], in that order; and when the names
    are names of functions and no keyword-argument text breaks the line,
    the file read line by line has the heading of each of them once and the
    directive to each of them once. *)
Theorem one_section_per_documented_name :
  NoDup (keys cells) ->
  output cells skip skip_plot skip_settings =
    header ++ String.concat EmptyString
                (List.map (fun name => written (document name))
                   (documented cells skip))
  /\ (forall name, In name (documented cells skip) ->
        exists plot kwargs,
          written (document name) = join nl (section_lines plot name kwargs)
          /\ count (autofunction_directive name)
               (section_lines plot name kwargs) = 1%nat)
  /\ (forall name,
        In name (keys cells) -> name ∉ skip -> startswith name "_" = false ->
        count name (documented cells skip) = 1%nat)
  /\ StronglySorted str_lt (documented cells skip)
  /\ (forallb identifier (keys cells) = true ->
      (forall name sig, In (name, sig) cells ->
                        one_line (kwargs_of skip_settings sig) = true) ->
      forall name,
        In name (keys cells) -> name ∉ skip -> startswith name "_" = false ->
        count (autofunction_directive name)
          (split_lines (output cells skip skip_plot skip_settings)) = 1%nat
        /\ count_headed name
             (split_lines (output cells skip skip_plot skip_settings)) = 1%nat).
Proof.
intros Hnd. repeat split.
- unfold output. rewrite run_documented. reflexivity.
- intros name Hin.
  destruct (written_documented cells skip skip_plot skip_settings name Hin)
    as [sig [_ Hw]].
  eexists _, _. split; [exact Hw|]. apply section_lines_directive.
- intros name Hk Hs Hu.
  apply count_NoDup.
  + apply documented_NoDup, Hnd.
  + apply documented_In. auto.
- apply documented_sorted, Hnd.
- apply output_line_counts; auto. apply documented_In. auto.
- apply output_line_counts; auto. apply documented_In. auto.
Qed.

Abbreviation kwargs_list := (Docs.kwargs_list skip_settings).
Abbreviation kwargs_of := (Docs.kwargs_of skip_settings).

(** C5: the section of a documented name of the plot-skip set holds the
    autofunction directive and nothing after it; the section of any other
    documented name holds the same directive and then one example block:
    the import, the reconstruction call with the keyword arguments of the
    name's function, and the plot. *)
Theorem section_with_or_without_plot (name : string) :
  In name (documented cells skip) ->
  exists sig,
    getitem cells name = OK sig /\
    written (document name) =
    join nl
      ([EmptyString; EmptyString; name; rule; EmptyString;
        autofunction_directive name; EmptyString]
       ++ (if contains skip_plot name then []
           else [ ".. plot::";
                  "  :include-source:";
                  EmptyString;
                  "  import ubcpdk";
                  EmptyString;
                  ("  " ++ reconstruction_call name (kwargs_of sig))%string;
                  "  c.plot()";
                  EmptyString ])
       ++ [EmptyString])%list.
Proof.
  intros Hin.
  destruct (written_documented cells skip skip_plot skip_settings name Hin)
    as [sig [Hsig Hw]].
  exists sig. split; [exact Hsig|]. rewrite Hw.
  destruct (contains skip_plot name); reflexivity.
Qed.

Lemma contains_In (t : list string) (x : string) :
  contains t x = true <-> In x t.
Proof.
  unfold contains. rewrite existsb_exists. split.
  - intros [y [Hy E]]. apply String.eqb_eq in E. subst. exact Hy.
  - intros H. exists x. split; [exact H|apply String.eqb_refl].
Qed.

Lemma contains_not_In (t : list string) (x : string) :
  contains t x = false <-> ~ In x t.
Proof.
  rewrite <- contains_In. destruct (contains t x); split; congruence.
Qed.

Lemma isinstance_primitive (v : pyval) :
  isinstance_int_float_str_tuple v = true <-> primitive v.
Proof. destruct v; simpl; split; (tauto || discriminate). Qed.

Lemma sublist_List_filter {A} (f : A -> bool) (l : list A) :
  sublist (List.filter f l) l.
Proof.
  induction l as [|a l IH]; simpl; [constructor|].
  destruct (f a); constructor; exact IH.
Qed.

(** C2: in the section of a documented name outside the plot-skip set,
    the keyword arguments of the reconstruction call are the parameters
    whose default is an int, a float, a str or a tuple and whose name is
    not in the settings-skip set, these and no others, in declared order,
    each as name=repr(default), separated by a comma and a space. *)
Theorem kwargs_are_the_primitive_defaults (name : string) :
  In name (documented cells skip) ->
  contains skip_plot name = false ->
  exists (sig items : signature),
    getitem cells name = OK sig
    /\ sublist items sig
    /\ (forall p, In p items <->
                  In p sig /\ primitive (snd p) /\ ~ In (fst p) skip_settings)
    /\ written (document name) =
       join nl (section_lines true name (join ", " (List.map render items))).
Proof.
  intros Hin Hplot.
  destruct (written_documented cells skip skip_plot skip_settings name Hin)
    as [sig [Hsig Hw]].
  exists sig.
  exists (List.filter
            (fun p => isinstance_int_float_str_tuple (snd p)
                      && negb (contains skip_settings (fst p))) sig).
  repeat split.
  - exact Hsig.
  - apply sublist_List_filter.
  - apply filter_In in H. tauto.
  - apply filter_In in H as [_ H]. apply andb_true_iff in H as [H _].
    apply isinstance_primitive. exact H.
  - apply filter_In in H as [_ H]. apply andb_true_iff in H as [_ H].
    apply negb_true_iff, contains_not_In in H. exact H.
  - intros [H1 [H2 H3]]. apply filter_In. split; [exact H1|].
    apply andb_true_iff. split.
    + apply isinstance_primitive. exact H2.
    + apply negb_true_iff, contains_not_In. exact H3.
  - rewrite Hw, Hplot. reflexivity.
Qed.

Lemma kwargs_list_app (sig1 sig2 : signature) :
  kwargs_list (sig1 ++ sig2)%list = (kwargs_list sig1 ++ kwargs_list sig2)%list.
Proof. unfold Docs.kwargs_list. rewrite List.filter_app, List.map_app. reflexivity. Qed.

(** C9: a parameter with no default, or with a default that is None, a
    list or a dict, adds nothing to the keyword arguments; a parameter
    outside the settings-skip set with a default that is an int, a float,
    a str, a tuple or a bool adds name=repr(default) at its place; and
    every keyword argument comes from a parameter with a default of one of
    these types. *)
Theorem kwargs_omit_other_defaults (before after : signature) (p : string) (d : pyval) :
  (d = PyEmpty \/ d = PyNone \/ (exists l, d = PyList l) \/ (exists l, d = PyDict l) ->
   kwargs_list (before ++ (p, d) :: after)%list =
   (kwargs_list before ++ kwargs_list after)%list)
  /\ ((exists z, d = PyInt z) \/ (exists f, d = PyFloat f) \/ (exists s, d = PyStr s)
      \/ (exists l, d = PyTuple l) \/ (exists b, d = PyBool b) ->
      ~ In p skip_settings ->
      kwargs_list (before ++ (p, d) :: after)%list =
      (kwargs_list before ++ [(p ++ "=" ++ repr d)%string]
       ++ kwargs_list after)%list)
  /\ (forall sig item,
        In item (kwargs_list sig) ->
        exists q v, In (q, v) sig /\ item = q ++ "=" ++ repr v
                    /\ isinstance_int_float_str_tuple v = true
                    /\ v <> PyEmpty /\ v <> PyNone
                    /\ (forall l, v <> PyList l) /\ (forall l, v <> PyDict l)).
Proof.
  repeat split.
  - intros H. rewrite kwargs_list_app. f_equal.
    unfold Docs.kwargs_list. simpl.
    destruct H as [->|[->|[[l ->]|[l ->]]]]; reflexivity.
  - intros H Hp. rewrite kwargs_list_app. f_equal.
    unfold Docs.kwargs_list. simpl.
    apply contains_not_In in Hp. rewrite Hp.
    destruct H as [[z ->]|[[f ->]|[[s' ->]|[[l ->]|[b ->]]]]]; reflexivity.
  - intros sig item H. unfold Docs.kwargs_list in H.
    apply in_map_iff in H as [[q v] [<- H]].
    apply filter_In in H as [Hin H]. apply andb_true_iff in H as [H _].
    simpl in *. exists q, v.
    split; [exact Hin|]. split; [reflexivity|]. split; [exact H|].
    destruct v; simpl in H; try discriminate H;
      repeat split; try intros ?; discriminate.
Qed.

End DocsClaims.

(** ** The writer under changes of its inputs *)
Section DocsInvariance.
Import Docs DocsSpec.

Lemma for_each_ext {A} (xs : list A) (f g : A -> M unit) :
  (forall x, In x xs -> forall st, f x st = g x st) ->
  forall st, for_each xs f st = for_each xs g st.
Proof.
  induction xs as [|x xs IH]; intros H st; [reflexivity|].
  simpl. unfold bind. rewrite (H x) by (left; reflexivity).
  destruct (g x st) as [st' [[]|e]]; [|reflexivity].
  apply IH. intros y Hy. apply H. right. exact Hy.
Qed.

(** A [dict] read by key does not show the order it was filled in. *)
Lemma getitem_Permutation (cells1 cells2 : registry) (k : string) :
  NoDup (keys cells1) -> cells1 ≡ₚ cells2 ->
  getitem cells1 k = getitem cells2 k.
Proof.
  intros Hnd Hp.
  induction Hp as [|[k1 v1] l l' Hp IH|[k1 v1] [k2 v2] l|l l' l'' Hp1 IH1 Hp2 IH2].
  - reflexivity.
  - simpl in *. apply NoDup_cons in Hnd as [_ Hnd].
    rewrite (IH Hnd). reflexivity.
  - simpl in *. apply NoDup_cons in Hnd as [Hne _].
    apply not_elem_of_cons in Hne as [Hne _].
    destruct (String.eqb_spec k1 k), (String.eqb_spec k2 k); congruence.
  - rewrite (IH1 Hnd). apply IH2.
    unfold keys in *. rewrite <- Hp1. exact Hnd.
Qed.

Lemma document_ext (cells1 cells2 : registry) (skip1 skip2 : gset string)
  (sp1 sp2 ss1 ss2 : list string) (name : string) :
  bool_decide (name ∈ skip1) = bool_decide (name ∈ skip2) ->
  contains sp1 name = contains sp2 name ->
  getitem cells1 name = getitem cells2 name ->
  (forall sig, getitem cells1 name = OK sig ->
               kwargs_of ss1 sig = kwargs_of ss2 sig) ->
  forall st, document cells1 skip1 sp1 ss1 name st
             = document cells2 skip2 sp2 ss2 name st.
Proof.
  intros Hs Hp Hg Hk st. unfold document. rewrite Hs.
  destruct (bool_decide (name ∈ skip2) || startswith name "_"); [reflexivity|].
  unfold bind, print, lift. simpl. rewrite <- Hg.
  destruct (getitem cells1 name) as [sig|e] eqn:E; [|reflexivity].
  rewrite Hp, (Hk sig eq_refl). reflexivity.
Qed.



Variable skip : gset string.
Variables skip_plot skip_settings : list string.

(** C6: the run is a function of the registry and the skip sets, and of the
    registry it sees the names with their signatures and not the order they
    were entered in: two registries with the same entries give the same
    file (and the same standard output and result). *)
Theorem output_independent_of_registry_order (cells1 cells2 : registry) :
  NoDup (keys cells1) ->
  cells1 ≡ₚ cells2 ->
  run cells1 skip skip_plot skip_settings = run cells2 skip skip_plot skip_settings.
Proof.
  intros Hnd Hp. unfold run, main, bind, write. simpl.
  rewrite (sorted_of_Permutation (keys cells1) (keys cells2))
    by (unfold keys; rewrite Hp; reflexivity).
  apply for_each_ext. intros name _ st.
  apply document_ext; auto using getitem_Permutation.
Qed.

Variable cells : registry.


End DocsInvariance.

(** C7: for the registry that holds bend90 with its defaults radius=10 and
    width=0.5 and for empty skip sets, the section of bend90, and so the
    file, has once the line of the reconstruction call with radius=10,
    width=0.5, indented by two spaces under the plot directive. *)
Theorem bend90_example_line :
  let call :=
    "c = ubcpdk.PDK.get_component(" ++ str1 dquote ++ "bend90" ++ str1 dquote
    ++ ", radius=10, width=0.5)" in
  DocsSpec.count ("  " ++ call)
    (Docs.split_lines
       (Docs.written (Docs.document Examples.bend90_only ∅ [] [] "bend90")))
  = 1%nat
  /\ DocsSpec.count ("  " ++ call)
       (Docs.split_lines (Docs.output Examples.bend90_only ∅ [] [])) = 1%nat
  /\ Docs.kwargs_of [] Bend90.bend90_signature = "radius=10, width=0.5".
Proof. vm_compute. auto. Qed.

(** ** Numbers and the [.3f] format *)
Section FormatFacts.
Import Bend90.






Lemma string_of_uint_digits (u : Decimal.uint) :
  all_digits (NilEmpty.string_of_uint u) = true.
Proof. induction u; simpl; auto. Qed.







End FormatFacts.

(** ** bend90 *)
Section Bend90Facts.
Import Bend90.
Context {LAYER : Layers} {pp : Layout} {contract : LayoutContract}.

(** The three texts. *)
Lemma labels_inv (radius width : pyval) (ls : list string) :
  labels radius width = OK ls ->
  exists sr sw,
    format_3f radius = OK sr /\ format_3f width = OK sw /\
    ls = [ "Lumerical_INTERCONNECT_library=Design kits/EBeam";
           "Lumerical_INTERCONNECT_component=ebeam_bend_1550";
           "Spice_param:radius=" ++ sr ++ "u wg_width=" ++ sw ++ "u" ].
Proof.
  unfold labels, rbind.
  destruct (format_3f radius) as [sr|]; [|discriminate].
  destruct (format_3f width) as [sw|]; [|discriminate].
  intros [= <-]. eauto.
Qed.

(** The loop leaves the centre and the ports where they are and appends
    one label for each text, each [0.1] above the one before. *)
Lemma add_labels_spec (texts : list string) (c : cell) (i : Z) :
  x (add_labels c i texts) = x c
  /\ y (add_labels c i texts) = y c
  /\ ports_of (add_labels c i texts) = ports_of c
  /\ labels_of (add_labels c i texts) =
     (labels_of c ++
      imap (fun k t =>
              label t (x c, fadd (y c)
                              (fmul (float_of_small_int (i + Z.of_nat k)) float_0_1))
                DEVREC) texts)%list.
Proof.
  revert c i. induction texts as [|t texts IH]; intros c i; simpl.
  - rewrite app_nil_r. auto.
  - destruct (IH (add c (label t (x c, fadd (y c)
                                       (fmul (float_of_small_int i) float_0_1))
                           DEVREC)) (i + 1))
      as (Hx & Hy & Hp & Hl).
    rewrite Hx, Hy, Hp, Hl, add_x, add_y, add_ports_of, add_labels_of.
    repeat split. rewrite <- app_assoc. simpl. rewrite Z.add_0_r.
    do 2 f_equal. apply imap_ext. intros k t' _. unfold compose.
    replace (i + 1 + Z.of_nat k) with (i + Z.of_nat (S k)) by lia.
    reflexivity.
Qed.

(** What [bend90] returns, when it returns. *)
Lemma bend90_inv (radius width : pyval) (c : cell) :
  bend90 radius width = OK c ->
  exists c0 ls,
    bend_circular radius width WG [DEVREC] 1 = OK c0
    /\ labels radius width = OK ls
    /\ c = autoname "bend90" [("radius", radius); ("width", width)]
             (add_pins (add_labels c0 0 ls) PORT).
Proof.
  unfold bend90, bend90_body, rbind.
  destruct (bend_circular radius width WG [DEVREC] 1) as [c0|]; [|discriminate].
  destruct (labels radius width) as [ls|]; [|discriminate].
  intros [= <-]. eauto.
Qed.


(** The labels of the cell [bend90] returns. *)
Lemma bend90_labels_of (radius width : pyval) (c0 c : cell) :
  bend_circular radius width WG [DEVREC] 1 = OK c0 ->
  bend90 radius width = OK c ->
  exists sr sw,
    format_3f radius = OK sr /\ format_3f width = OK sw /\
    labels_of c =
    [ label "Lumerical_INTERCONNECT_library=Design kits/EBeam"
        (x c0, fadd (y c0) (fmul (float_of_small_int 0) float_0_1)) DEVREC;
      label "Lumerical_INTERCONNECT_component=ebeam_bend_1550"
        (x c0, fadd (y c0) (fmul (float_of_small_int 1) float_0_1)) DEVREC;
      label ("Spice_param:radius=" ++ sr ++ "u wg_width=" ++ sw ++ "u")
        (x c0, fadd (y c0) (fmul (float_of_small_int 2) float_0_1)) DEVREC ].
Proof.
  intros Hb Hc. apply bend90_inv in Hc as (c0' & ls & Hb' & Hl & ->).
  rewrite Hb in Hb'. injection Hb' as <-.
  apply labels_inv in Hl as (sr & sw & Hr & Hw & ->).
  exists sr, sw. repeat split; try assumption.
  rewrite autoname_labels_of, add_pins_labels_of.
  destruct (add_labels_spec
              [ "Lumerical_INTERCONNECT_library=Design kits/EBeam";
                "Lumerical_INTERCONNECT_component=ebeam_bend_1550";
                "Spice_param:radius=" ++ sr ++ "u wg_width=" ++ sw ++ "u" ]
              c0 0) as (_ & _ & _ & Hl).
  rewrite Hl, (bend_circular_labels _ _ _ _ _ _ Hb). reflexivity.
Qed.

Lemma label_offsets :
  fmul (float_of_small_int 0) float_0_1 = float_0_0
  /\ fmul (float_of_small_int 1) float_0_1 = float_0_1
  /\ fmul (float_of_small_int 2) float_0_1 = float_0_2.
Proof. vm_compute. auto. Qed.

Lemma fadd_zero (f : spec_float) :
  f <> S754_zero true -> fadd f float_0_0 = f.
Proof. destruct f as [[]| | |]; simpl; congruence. Qed.



(** C10: the three labels stand, in the order library text, component
    text, parameter text, at the x of the centre of the bend's bounding
    box and at its y plus 0.0, plus 0.1 and plus 0.2, in float
    arithmetic; y plus 0.0 is y itself, but for a negative zero. *)
Theorem bend90_label_positions (radius width : pyval) (c0 c : cell) :
  bend_circular radius width WG [DEVREC] 1 = OK c0 ->
  bend90 radius width = OK c ->
  exists t2,
    labels radius width =
      OK [ "Lumerical_INTERCONNECT_library=Design kits/EBeam";
           "Lumerical_INTERCONNECT_component=ebeam_bend_1550"; t2 ]
    /\ List.map (fun l => (text l, position l)) (labels_of c) =
       [ ("Lumerical_INTERCONNECT_library=Design kits/EBeam",
          (x c0, fadd (y c0) float_0_0));
         ("Lumerical_INTERCONNECT_component=ebeam_bend_1550",
          (x c0, fadd (y c0) float_0_1));
         (t2, (x c0, fadd (y c0) float_0_2)) ]
    /\ (y c0 <> S754_zero true -> fadd (y c0) float_0_0 = y c0).
Proof.
  intros Hb Hc.
  destruct (bend90_labels_of radius width c0 c Hb Hc) as (sr & sw & Hsr & Hsw & Hlabels).
  destruct label_offsets as (E0 & E1 & E2).
  exists ("Spice_param:radius=" ++ sr ++ "u wg_width=" ++ sw ++ "u").
  repeat split.
  - unfold labels, rbind. rewrite Hsr, Hsw. reflexivity.
  - rewrite Hlabels. cbn [List.map text position].
    rewrite E0, E1, E2. reflexivity.
  - apply fadd_zero.
Qed.

End Bend90Facts.

(** ** The sample inputs meet the hypotheses *)
Section Witnesses.
Import Docs DocsSpec Bend90 Bend90.Toy Examples.

#[local] Instance toy_contract : LayoutContract.
Proof.
  constructor; try reflexivity.
  - intros radius width ly clad off c. simpl. unfold toy_bend.
    destruct (gt_zero radius && gt_zero width); [|discriminate].
    intros [= <-] _ _. discriminate.
  - intros radius width ly clad off c. simpl. unfold toy_bend.
    destruct (gt_zero radius && gt_zero width); [|discriminate].
    intros [= <-]. reflexivity.
Qed.

Lemma sample_cells_NoDup : NoDup (keys sample_cells).
Proof. apply (bool_decide_unpack _). vm_compute. exact I. Qed.

Lemma sample_cells_reordered_Permutation :
  sample_cells ≡ₚ sample_cells_reordered.
Proof. apply perm_swap. Qed.

Lemma bend90_documented : In "bend90" (documented sample_cells Docs.skip).
Proof. vm_compute. auto. Qed.

Lemma waveguide_documented : In "waveguide" (documented sample_cells Docs.skip).
Proof. vm_compute. auto. Qed.

Lemma sample_cells_one_line (name : string) (sig : signature) :
  In (name, sig) sample_cells ->
  one_line (kwargs_of Docs.skip_settings sig) = true.
Proof.
intros H. simpl in H.
repeat (destruct H as [H|H]; [injection H as <- <-; vm_compute; reflexivity|]).
destruct H.
Qed.

Lemma one_section_per_documented_name_witness :
  NoDup (keys sample_cells)
  /\ forallb identifier (keys sample_cells) = true
  /\ documented sample_cells Docs.skip
     = ["add_fiber_array_siepic"; "bend90"; "waveguide"]
  /\ count "bend90" (documented sample_cells Docs.skip) = 1%nat
  /\ StronglySorted str_lt (documented sample_cells Docs.skip)
  /\ count (autofunction_directive "bend90")
       (split_lines
          (output sample_cells Docs.skip Docs.skip_plot Docs.skip_settings))
     = 1%nat
  /\ count_headed "bend90"
       (split_lines
          (output sample_cells Docs.skip Docs.skip_plot Docs.skip_settings))
     = 1%nat.
Proof.
split; [exact sample_cells_NoDup|].
split; [reflexivity|].
split; [vm_compute; reflexivity|].
destruct (one_section_per_documented_name sample_cells Docs.skip
            Docs.skip_plot Docs.skip_settings sample_cells_NoDup)
  as (_ & _ & Hcount & Hsorted & Hlines).
assert (Hkey : In "bend90" (keys sample_cells)) by (vm_compute; auto).
assert (Hskip : "bend90" ∉ Docs.skip)
  by (apply (bool_decide_unpack _); vm_compute; exact I).
split; [apply Hcount; auto|].
split; [exact Hsorted|].
apply (Hlines eq_refl sample_cells_one_line "bend90"); auto.
Defined.

Lemma section_with_or_without_plot_witness :
  In "bend90" (documented sample_cells Docs.skip)
  /\ exists sig,
       getitem sample_cells "bend90" = OK sig /\
       written (document sample_cells Docs.skip Docs.skip_plot
                  Docs.skip_settings "bend90") =
       join nl
         ([EmptyString; EmptyString; "bend90"; rule; EmptyString;
           autofunction_directive "bend90"; EmptyString]
          ++ (if contains Docs.skip_plot "bend90" then []
              else [ ".. plot::";
                     "  :include-source:";
                     EmptyString;
                     "  import ubcpdk";
                     EmptyString;
                     ("  " ++ reconstruction_call "bend90"
                                (kwargs_of Docs.skip_settings sig))%string;
                     "  c.plot()";
                     EmptyString ])
          ++ [EmptyString])%list.
Proof.
  split; [exact bend90_documented|].
  exact (section_with_or_without_plot sample_cells Docs.skip Docs.skip_plot
           Docs.skip_settings "bend90" bend90_documented).
Defined.

Lemma kwargs_are_the_primitive_defaults_witness :
  In "waveguide" (documented sample_cells Docs.skip)
  /\ contains Docs.skip_plot "waveguide" = false
  /\ exists (sig items : signature),
       getitem sample_cells "waveguide" = OK sig
       /\ sublist items sig
       /\ (forall p, In p items <->
                     In p sig /\ primitive (snd p)
                     /\ ~ In (fst p) Docs.skip_settings)
       /\ written (document sample_cells Docs.skip Docs.skip_plot
                     Docs.skip_settings "waveguide") =
          join nl (section_lines true "waveguide"
                     (join ", " (List.map render items))).
Proof.
  split; [exact waveguide_documented|]. split; [reflexivity|].
  exact (kwargs_are_the_primitive_defaults sample_cells Docs.skip
           Docs.skip_plot Docs.skip_settings "waveguide"
           waveguide_documented eq_refl).
Defined.

Lemma kwargs_omit_other_defaults_witness :
  kwargs_list Docs.skip_settings
    ([("length", PyInt 10)] ++ ("cross_section", PyNone)
                            :: [("with_pins", PyBool true)])%list
  = ["length=10"; "with_pins=True"]
  /\ kwargs_list Docs.skip_settings
       ([("length", PyInt 10)] ++ ("with_pins", PyBool true)
                               :: [("cross_section", PyNone)])%list
     = ["length=10"; "with_pins=True"].
Proof.
  destruct (kwargs_omit_other_defaults Docs.skip_settings
              [("length", PyInt 10)] [("with_pins", PyBool true)]
              "cross_section" PyNone) as (Homit & _ & _).
  destruct (kwargs_omit_other_defaults Docs.skip_settings
              [("length", PyInt 10)] [("cross_section", PyNone)]
              "with_pins" (PyBool true)) as (_ & Hkeep & _).
  split.
  - rewrite Homit by auto. reflexivity.
  - rewrite Hkeep.
    + reflexivity.
    + right. right. right. right. exists true. reflexivity.
    + simpl. intros [H|[H|[]]]; discriminate H.
Defined.

Lemma output_independent_of_registry_order_witness :
  NoDup (keys sample_cells)
  /\ sample_cells ≡ₚ sample_cells_reordered
  /\ run sample_cells Docs.skip Docs.skip_plot Docs.skip_settings
     = run sample_cells_reordered Docs.skip Docs.skip_plot Docs.skip_settings.
Proof.
  split; [exact sample_cells_NoDup|].
  split; [exact sample_cells_reordered_Permutation|].
  exact (output_independent_of_registry_order Docs.skip Docs.skip_plot
           Docs.skip_settings sample_cells sample_cells_reordered
           sample_cells_NoDup sample_cells_reordered_Permutation).
Defined.




Lemma bend90_default_returns :
  exists c, bend90 default_radius default_width = OK c.
Proof. eexists. vm_compute. reflexivity. Qed.



Lemma bend90_default_bend :
  exists c0, bend_circular default_radius default_width WG [DEVREC] 1 = OK c0.
Proof. eexists. vm_compute. reflexivity. Qed.

Lemma bend90_label_positions_witness :
  exists c0 c,
    bend_circular default_radius default_width WG [DEVREC] 1 = OK c0
    /\ bend90 default_radius default_width = OK c
    /\ exists t2,
         labels default_radius default_width =
           OK [ "Lumerical_INTERCONNECT_library=Design kits/EBeam";
                "Lumerical_INTERCONNECT_component=ebeam_bend_1550"; t2 ]
         /\ List.map (fun l => (text l, position l)) (labels_of c) =
            [ ("Lumerical_INTERCONNECT_library=Design kits/EBeam",
               (x c0, fadd (y c0) float_0_0));
              ("Lumerical_INTERCONNECT_component=ebeam_bend_1550",
               (x c0, fadd (y c0) float_0_1));
              (t2, (x c0, fadd (y c0) float_0_2)) ]
         /\ (y c0 <> S754_zero true -> fadd (y c0) float_0_0 = y c0).
Proof.
  destruct bend90_default_bend as [c0 Hb].
  destruct bend90_default_returns as [c Hc].
  exists c0, c. split; [exact Hb|]. split; [exact Hc|].
  exact (bend90_label_positions default_radius default_width c0 c Hb Hc).
Defined.

Example sample_kwargs :
  kwargs_of Docs.skip_settings
    [ ("length", PyInt 10); ("width", PyFloat float_0_5);
      ("layer", PyTuple [PyInt 1; PyInt 0]); ("name", PyStr "wg");
      ("with_pins", PyBool true); ("flatten", PyBool false);
      ("cross_section", PyNone); ("bbox_layers", PyList []);
      ("settings", PyDict []); ("component", PyEmpty) ]
  = "length=10, width=0.5, layer=(1, 0), name='wg', with_pins=True".
Proof. vm_compute. reflexivity. Qed.

Example sample_stdout :
  stdout (fst (script sample_cells))
  = ["add_fiber_array_siepic"; "bend90"; "waveguide"].
Proof. vm_compute. reflexivity. Qed.

Example default_labels :
  labels default_radius default_width
  = OK [ "Lumerical_INTERCONNECT_library=Design kits/EBeam";
         "Lumerical_INTERCONNECT_component=ebeam_bend_1550";
         "Spice_param:radius=10.000u wg_width=0.500u" ].
Proof. vm_compute. reflexivity. Qed.

End Witnesses.


(** * Part III: further properties of the two programs *)

(** ** The documentation writer: what is left out, what is printed *)
Section DocsMore.
Import Docs DocsSpec More.

Variable cells : registry.
Variable skip : gset string.
Variables skip_plot skip_settings : list string.

Lemma count_not_In (x : string) (xs : list string) :
  ~ In x xs -> count x xs = 0%nat.
Proof.
induction xs as [|y xs IH]; [reflexivity|].
intros H. rewrite count_cons, IH by (intros Hx; apply H; right; exact Hx).
destruct (String.eqb_spec x y) as [->|]; [|reflexivity].
exfalso. apply H. left. reflexivity.
Qed.

(** In the lines of the file, the directive to a name and its heading
    stand as many times as the name stands among the documented names. *)
Lemma output_counts_any (x : string) :
  forallb identifier (keys cells) = true ->
  (forall name sig, In (name, sig) cells ->
                    one_line (kwargs_of skip_settings sig) = true) ->
  count (autofunction_directive x)
    (split_lines (output cells skip skip_plot skip_settings))
  = count x (documented cells skip)
  /\ count_headed x
       (split_lines (output cells skip skip_plot skip_settings))
     = count x (documented cells skip).
Proof.
intros Hid Hkw.
pose proof (documented_identifiers cells skip Hid) as Hdoc.
rewrite (split_lines_output cells skip skip_plot skip_settings Hid Hkw).
unfold file_lines. split.
- rewrite !count_app, flat_count_directive by exact Hdoc.
  rewrite Nat.add_0_r. reflexivity.
- assert (Hb : exists B,
             (flat_map
                (fun n => EmptyString
                          :: section_tail (negb (contains skip_plot n)) n
                               (kwargs_for cells skip_settings n))
                (documented cells skip) ++ [EmptyString])%list
             = EmptyString :: B).
  { destruct (documented cells skip); simpl; eauto. }
  destruct Hb as [B HB]. rewrite HB, count_headed_split, <- HB.
  rewrite flat_count_headed by exact Hdoc. reflexivity.
Qed.

(** X1: a name of the skip set, a name that begins with an underscore and
    a name that is no key of the registry get nothing in the file: read
    line by line, the file has no autofunction directive to such a name and
    no heading of it (for a registry whose keys are names of functions and
    whose keyword texts do not break the line). *)
Theorem no_section_for_other_names (x : string) :
  forallb identifier (keys cells) = true ->
  (forall name sig, In (name, sig) cells ->
                    one_line (kwargs_of skip_settings sig) = true) ->
  x ∈ skip \/ startswith x "_" = true \/ ~ In x (keys cells) ->
  count (autofunction_directive x)
    (split_lines (output cells skip skip_plot skip_settings)) = 0%nat
  /\ count_headed x
       (split_lines (output cells skip skip_plot skip_settings)) = 0%nat.
Proof.
intros Hid Hkw Hx.
destruct (output_counts_any x Hid Hkw) as [H1 H2].
rewrite H1, H2.
assert (Hnot : ~ In x (documented cells skip)).
{ intros Hin. apply documented_In in Hin as (Hk & Hs & Hu).
  destruct Hx as [Hx|[Hx|Hx]]; [contradiction|congruence|contradiction]. }
rewrite (count_not_In x _ Hnot). auto.
Qed.

(** X2: the names the run prints are the documented names: every key of
    the registry outside the skip set that does not begin with an
    underscore, no other name, in increasing order. *)
Theorem printed_names :
  stdout (fst (run cells skip skip_plot skip_settings)) = documented cells skip
  /\ (forall name,
        In name (stdout (fst (run cells skip skip_plot skip_settings))) <->
        In name (keys cells) /\ (name ∉ skip) /\ startswith name "_" = false)
  /\ Sorted str_le (stdout (fst (run cells skip skip_plot skip_settings)))
  /\ (NoDup (keys cells) ->
      NoDup (stdout (fst (run cells skip skip_plot skip_settings)))).
Proof.
rewrite run_documented. simpl.
split; [reflexivity|].
split; [intros name; apply documented_In|].
split; [|apply documented_NoDup].
unfold documented.
apply StronglySorted_Sorted, StronglySorted_filter.
apply StronglySorted_merge_sort; apply _.
Qed.

(** X3: when every key of the registry is in the skip set or begins with
    an underscore (so also for the empty registry), the file is the header
    and nothing is printed. *)
Theorem header_alone :
  (forall name, In name (keys cells) -> name ∈ skip \/ startswith name "_" = true) ->
  run cells skip skip_plot skip_settings
  = ({| file := header; stdout := [] |}, OK tt).
Proof.
intros H. rewrite run_documented.
assert (E : documented cells skip = []).
{ destruct (documented cells skip) as [|n ns] eqn:E; [reflexivity|].
  assert (Hn : In n (documented cells skip)) by (rewrite E; left; reflexivity).
  apply documented_In in Hn as (Hk & Hs & Hu).
  destruct (H n Hk); [contradiction|congruence]. }
rewrite E. simpl. rewrite str_app_nil_r. reflexivity.
Qed.

End DocsMore.

(** ** The documentation writer under changes of the registry *)
Section DocsCompose.
Import Docs DocsSpec More.

Variable skip : gset string.
Variables skip_plot skip_settings : list string.

Lemma List_filter_Permutation {A} (f : A -> bool) (l l' : list A) :
  l ≡ₚ l' -> List.filter f l ≡ₚ List.filter f l'.
Proof.
induction 1 as [|a l l' Hp IH|a b l|l l' l'' Hp1 IH1 Hp2 IH2]; simpl.
- reflexivity.
- destruct (f a); [apply perm_skip|]; exact IH.
- destruct (f a), (f b); try reflexivity. apply perm_swap.
- etransitivity; eassumption.
Qed.

Lemma documented_Sorted (cells : registry) :
  Sorted str_le (documented cells skip).
Proof.
unfold documented. apply StronglySorted_Sorted, StronglySorted_filter.
apply StronglySorted_merge_sort; apply _.
Qed.

Lemma documented_Permutation (cells : registry) :
  documented cells skip ≡ₚ List.filter (gets_section skip) (keys cells).
Proof. apply List_filter_Permutation, sorted_Permutation. Qed.

Lemma gets_section_false (name : string) :
  gets_section skip name = false <-> name ∈ skip \/ startswith name "_" = true.
Proof.
unfold gets_section. rewrite andb_false_iff, !negb_false_iff, bool_decide_eq_true.
reflexivity.
Qed.

Lemma concat_empty_app (xs ys : list string) :
  String.concat EmptyString (xs ++ ys)
  = String.concat EmptyString xs ++ String.concat EmptyString ys.
Proof.
induction xs as [|x xs IH]; [reflexivity|].
change ((x :: xs) ++ ys)%list with (x :: (xs ++ ys))%list.
rewrite !concat_empty_cons, IH, str_app_assoc. reflexivity.
Qed.

(** The section of a name is read from the entry of that name alone. *)
Lemma written_other_entry (cells : registry) (name n : string) (sig : signature) :
  n <> name ->
  written (document ((name, sig) :: cells) skip skip_plot skip_settings n)
  = written (document cells skip skip_plot skip_settings n).
Proof.
intros Hne. unfold written. f_equal. f_equal.
apply document_ext; auto.
simpl. destruct (String.eqb_spec name n); [congruence|reflexivity].
Qed.

(** X4: an entry of the registry whose name is in the skip set or begins
    with an underscore has no part in the run: with it or without it the
    file, the printed names and the result are the same. *)
Theorem entry_left_out_changes_nothing (cells : registry) (name : string)
  (sig : signature) :
  name ∈ skip \/ startswith name "_" = true ->
  run ((name, sig) :: cells) skip skip_plot skip_settings
  = run cells skip skip_plot skip_settings.
Proof.
intros Hout. apply gets_section_false in Hout.
assert (E : documented ((name, sig) :: cells) skip = documented cells skip).
{ apply (Sorted_unique str_le); try apply documented_Sorted.
  rewrite !documented_Permutation. simpl. rewrite Hout. reflexivity. }
rewrite !run_documented, E.
rewrite (map_ext_in
           (fun n => written (document ((name, sig) :: cells) skip skip_plot
                                skip_settings n))
           (fun n => written (document cells skip skip_plot skip_settings n))).
- reflexivity.
- intros n Hn. apply written_other_entry.
  intros ->. apply filter_In in Hn as [_ Hn]. congruence.
Qed.

Lemma str_lt_trans (a b c : string) : str_lt a b -> str_lt b c -> str_lt a c.
Proof.
intros H1 H2. apply str_lt_iff in H1 as [H1 N1]. apply str_lt_iff in H2 as [H2 N2].
apply str_lt_iff. split; [etransitivity; eassumption|].
intros ->. apply N1. apply (anti_symm str_le); assumption.
Qed.

Lemma List_filter_none {A} (f : A -> bool) (l : list A) :
  (forall x, In x l -> f x = false) -> List.filter f l = [].
Proof.
induction l as [|a l IH]; [reflexivity|]. intros H. simpl.
rewrite (H a) by (left; reflexivity).
apply IH. intros x Hx. apply H. right. exact Hx.
Qed.

Lemma List_filter_all {A} (f : A -> bool) (l : list A) :
  (forall x, In x l -> f x = true) -> List.filter f l = l.
Proof.
induction l as [|a l IH]; [reflexivity|]. intros H. simpl.
rewrite (H a) by (left; reflexivity). f_equal.
apply IH. intros x Hx. apply H. right. exact Hx.
Qed.

(** A list in increasing order is its part below [name] followed by the
    rest. *)
Lemma filter_split_sorted (name : string) (l : list string) :
  StronglySorted str_lt l ->
  l = (List.filter (fun x => String.ltb x name) l
       ++ List.filter (fun x => negb (String.ltb x name)) l)%list.
Proof.
induction 1 as [|a l Hs IH Hall]; [reflexivity|].
simpl. destruct (String.ltb a name) eqn:Ea; simpl.
- f_equal. exact IH.
- assert (Hl : forall x, In x l -> String.ltb x name = false).
  { intros x Hx. rewrite List.Forall_forall in Hall.
    destruct (String.ltb x name) eqn:Ex; [|reflexivity].
    assert (Han : str_lt a name).
    { apply (str_lt_trans a x name); [apply Hall, Hx|].
      unfold str_lt. rewrite Ex. exact I. }
    unfold str_lt in Han. rewrite Ea in Han. destruct Han. }
  rewrite (List_filter_none _ l Hl), List_filter_all; [reflexivity|].
  intros x Hx. rewrite (Hl x Hx). reflexivity.
Qed.

Lemma str_lt_of_not_ltb (x name : string) :
  String.ltb x name = false -> x <> name -> str_lt name x.
Proof.
unfold str_lt, String.ltb. rewrite (String.compare_antisym name x).
destruct (String.compare x name) eqn:E; simpl; intros H Hne;
  [apply String.compare_eq_iff in E; contradiction|discriminate|exact I].
Qed.

Lemma StronglySorted_lt_le (l : list string) :
  StronglySorted str_lt l -> StronglySorted str_le l.
Proof.
induction 1 as [|a l Hs IH Hall]; constructor; [exact IH|].
eapply List.Forall_impl; [|exact Hall].
intros x Hx. apply str_le_cases. left. exact Hx.
Qed.

(** X5: a new entry whose name gets a section adds that section and
    changes no other: the documented names of the new registry are those
    of the old one with the new name put in at its place in the order, and
    the new file is the old one with the section of the new name put in
    between the sections of the names below it and those above it. *)
Theorem new_entry_adds_its_section (cells : registry) (name : string)
  (sig : signature) :
  NoDup (keys cells) ->
  ~ In name (keys cells) ->
  name ∉ skip ->
  startswith name "_" = false ->
  exists below above : list string,
    documented cells skip = (below ++ above)%list
    /\ documented ((name, sig) :: cells) skip = (below ++ name :: above)%list
    /\ List.Forall (fun x => str_lt x name) below
    /\ List.Forall (fun x => str_lt name x) above
    /\ output cells skip skip_plot skip_settings
       = header
         ++ String.concat EmptyString
              (List.map (fun n => written (document cells skip skip_plot
                                             skip_settings n)) below)
         ++ String.concat EmptyString
              (List.map (fun n => written (document cells skip skip_plot
                                             skip_settings n)) above)
    /\ output ((name, sig) :: cells) skip skip_plot skip_settings
       = header
         ++ String.concat EmptyString
              (List.map (fun n => written (document cells skip skip_plot
                                             skip_settings n)) below)
         ++ written (document ((name, sig) :: cells) skip skip_plot
                       skip_settings name)
         ++ String.concat EmptyString
              (List.map (fun n => written (document cells skip skip_plot
                                             skip_settings n)) above).
Proof.
intros Hnd Hnew Hskip Hund.
pose proof (documented_sorted cells skip Hnd) as Hsorted.
set (D := documented cells skip) in *.
set (below := List.filter (fun x => String.ltb x name) D).
set (above := List.filter (fun x => negb (String.ltb x name)) D).
assert (HD : D = (below ++ above)%list) by apply filter_split_sorted, Hsorted.
assert (Hnot : ~ In name D).
{ intros H. apply documented_In in H as [H _]. contradiction. }
assert (Hbelow : List.Forall (fun x => str_lt x name) below).
{ apply List.Forall_forall. intros x Hx. apply filter_In in Hx as [_ Hx].
  unfold str_lt. rewrite Hx. exact I. }
assert (Habove : List.Forall (fun x => str_lt name x) above).
{ apply List.Forall_forall. intros x Hx. apply filter_In in Hx as [Hx Hlt].
  apply negb_true_iff in Hlt. apply str_lt_of_not_ltb; [exact Hlt|].
  intros ->. contradiction. }
assert (Hgets : gets_section skip name = true).
{ unfold gets_section. rewrite Hund.
  rewrite (bool_decide_eq_false_2 _ Hskip). reflexivity. }
assert (E : documented ((name, sig) :: cells) skip = (below ++ name :: above)%list).
{ apply (Sorted_unique str_le); [apply documented_Sorted| |].
  - apply StronglySorted_Sorted. apply StronglySorted_app. repeat split.
    + intros x1 x2 H1 H2. apply list_elem_of_In in H1, H2.
      rewrite List.Forall_forall in Hbelow, Habove.
      apply str_le_cases. left. destruct H2 as [<-|H2]; [auto|].
      apply (str_lt_trans x1 name x2); auto.
    + apply StronglySorted_filter.
      apply StronglySorted_lt_le, Hsorted.
    + constructor.
      * apply StronglySorted_filter.
        apply StronglySorted_lt_le, Hsorted.
      * eapply List.Forall_impl; [|exact Habove].
        intros x Hx. apply str_le_cases. left. exact Hx.
  - rewrite documented_Permutation. simpl. rewrite Hgets.
    rewrite <- Permutation_middle. apply perm_skip.
    rewrite <- HD. symmetry. apply documented_Permutation. }
exists below, above.
split; [exact HD|]. split; [exact E|]. split; [exact Hbelow|].
split; [exact Habove|]. split.
- unfold output. rewrite run_documented. simpl file. fold D.
  rewrite HD at 1. rewrite List.map_app, concat_empty_app. reflexivity.
- unfold output. rewrite run_documented. simpl file. rewrite E.
  rewrite List.map_app, concat_empty_app. cbn [List.map].
  rewrite concat_empty_cons.
  rewrite (map_ext_in _ (fun n => written (document cells skip skip_plot
                                             skip_settings n)) below).
  + rewrite (map_ext_in _ (fun n => written (document cells skip skip_plot
                                               skip_settings n)) above).
    * reflexivity.
    * intros n Hn. apply written_other_entry. intros ->.
      apply Hnot. rewrite HD. apply in_or_app. right. exact Hn.
  + intros n Hn. apply written_other_entry. intros ->.
    apply Hnot. rewrite HD. apply in_or_app. left. exact Hn.
Qed.

(** X6: the plot-skip set and the settings-skip set are read by
    membership alone: two tuples with the same members, in any order and
    with any repetition, give the same run. *)
Theorem skip_tuples_by_members (cells : registry)
  (skip_plot' skip_settings' : list string) :
  (forall x, In x skip_plot <-> In x skip_plot') ->
  (forall x, In x skip_settings <-> In x skip_settings') ->
  run cells skip skip_plot skip_settings
  = run cells skip skip_plot' skip_settings'.
Proof.
intros Hp Hs.
assert (Hc : forall t t' x, (forall y, In y t <-> In y t') ->
                            contains t x = contains t' x).
{ intros t t' x H. destruct (contains t' x) eqn:E.
  - apply contains_In, H, contains_In, E.
  - apply contains_not_In. intros Hx. apply contains_not_In in E.
    apply E, H, Hx. }
unfold run, Docs.main, bind, write. simpl.
apply for_each_ext. intros name _ st.
apply document_ext; auto.
intros sig _. unfold kwargs_of, kwargs_list. do 2 f_equal.
apply filter_ext. intros p. f_equal. f_equal. apply Hc, Hs.
Qed.


End DocsCompose.

(** ** [repr] keeps to one line *)
Section ReprOneLine.
Import Docs DocsSpec More.

Lemma one_line_concat_empty (ls : list string) :
  forallb one_line ls = true -> one_line (String.concat EmptyString ls) = true.
Proof.
induction ls as [|l ls IH]; [reflexivity|].
intros H. simpl in H. apply andb_true_iff in H as [Hl Hls].
rewrite concat_empty_cons, one_line_app, Hl, (IH Hls). reflexivity.
Qed.

Lemma one_line_join (sep : string) (ls : list string) :
  one_line sep = true -> forallb one_line ls = true ->
  one_line (join sep ls) = true.
Proof.
intros Hsep. induction ls as [|l ls IH]; [reflexivity|].
intros H. simpl in H. apply andb_true_iff in H as [Hl Hls].
destruct ls as [|l' ls']; [exact Hl|].
change (join sep (l :: l' :: ls')) with (l ++ sep ++ join sep (l' :: ls')).
rewrite !one_line_app, Hl, Hsep, (IH Hls). reflexivity.
Qed.

Lemma one_line_substring (s : string) (n m : nat) :
  one_line s = true -> one_line (String.substring n m s) = true.
Proof.
revert n m. induction s as [|c s IH]; intros n m H.
- destruct n, m; reflexivity.
- rewrite one_line_cons in H. apply andb_true_iff in H as [Hc Hs].
  destruct n as [|n]; simpl.
  + destruct m as [|m]; [reflexivity|].
    rewrite one_line_cons, Hc. apply IH, Hs.
  + apply IH, Hs.
Qed.

Lemma all_digits_one_line (s : string) :
  Bend90.all_digits s = true -> one_line s = true.
Proof.
induction s as [|c s IH]; [reflexivity|].
simpl. intros H. apply andb_true_iff in H as [Hc Hs].
rewrite one_line_cons, (IH Hs), andb_true_r.
destruct (Ascii.eqb_spec newline c) as [<-|]; [discriminate|reflexivity].
Qed.

Lemma one_line_repr_int (z : Z) : one_line (repr_int z) = true.
Proof.
assert (Hu : forall u, one_line (NilZero.string_of_uint u) = true).
{ intros u. unfold NilZero.string_of_uint.
  destruct u; try reflexivity;
    apply all_digits_one_line, (string_of_uint_digits (_ u)). }
unfold repr_int. destruct (Z.to_int z) as [u|u]; simpl.
- apply Hu.
- rewrite one_line_cons, Hu. reflexivity.
Qed.

Lemma one_line_zeros (n : Z) : one_line (zeros n) = true.
Proof.
unfold zeros. apply one_line_concat_empty.
induction (Z.to_nat n) as [|k IH]; [reflexivity|exact IH].
Qed.

Lemma one_line_repr_digits (ds : string) (k : Z) :
  one_line ds = true -> one_line (repr_digits ds k) = true.
Proof.
intros H. unfold repr_digits, substr_to, substr_from, exponent_str.
repeat match goal with
       | |- context [if ?b then _ else _] => destruct b
       end;
  rewrite ?one_line_app, ?one_line_substring, ?one_line_zeros,
    ?one_line_repr_int, ?H by exact H; reflexivity.
Qed.

Lemma one_line_repr_float (f : spec_float) : one_line (repr_float f) = true.
Proof.
destruct f as [[]|[]| |s m e]; try reflexivity.
unfold repr_float. destruct (shortest_digits m e) as [c k].
rewrite one_line_app, one_line_repr_digits by apply one_line_repr_int.
destruct s; reflexivity.
Qed.

Lemma one_line_escape_char (q c : ascii) :
  q = squote \/ q = dquote -> one_line (escape_char q c) = true.
Proof.
intros [->| ->]; destruct c as [[] [] [] [] [] [] [] []]; reflexivity.
Qed.

Lemma str_quote_cases (s : string) : str_quote s = squote \/ str_quote s = dquote.
Proof. unfold str_quote. destruct (_ && _); auto. Qed.

(** The [repr] of a str is on one line, whatever the str holds. *)
Lemma one_line_repr_str (s : string) : one_line (repr_str s) = true.
Proof.
unfold repr_str. pose proof (str_quote_cases s) as Hq.
rewrite one_line_app, one_line_cons.
replace (one_line (str1 (str_quote s))) with true
  by (destruct Hq as [-> | ->]; reflexivity).
replace (negb (Ascii.eqb newline (str_quote s))) with true
  by (destruct Hq as [-> | ->]; reflexivity).
rewrite andb_true_r. simpl. apply one_line_concat_empty.
induction (list_ascii_of_string s) as [|c cs IH]; [reflexivity|].
simpl. rewrite (one_line_escape_char _ c Hq). exact IH.
Qed.

Lemma one_line_repr : forall v : pyval, plain v = true -> one_line (repr v) = true.
Proof.
fix IH 1. intros [| |b|z|f|s|items|items|items|r] H; simpl.
- reflexivity.
- reflexivity.
- destruct b; reflexivity.
- apply one_line_repr_int.
- apply one_line_repr_float.
- apply one_line_repr_str.
- assert (Hall : forallb one_line (List.map repr items) = true).
  { simpl in H. induction items as [|a items IHl]; [reflexivity|].
    simpl in *. apply andb_true_iff in H as [Ha Hi].
    rewrite (IH a Ha). apply IHl, Hi. }
  destruct items as [|a [|b rest]].
  + reflexivity.
  + simpl in Hall. rewrite andb_true_r in Hall.
    rewrite !one_line_app, Hall. reflexivity.
  + rewrite !one_line_app, one_line_join by (reflexivity || exact Hall).
    reflexivity.
- assert (Hall : forallb one_line (List.map repr items) = true).
  { simpl in H. induction items as [|a items IHl]; [reflexivity|].
    simpl in *. apply andb_true_iff in H as [Ha Hi].
    rewrite (IH a Ha). apply IHl, Hi. }
  rewrite !one_line_app, one_line_join by (reflexivity || exact Hall).
  reflexivity.
- assert (Hall : forallb one_line
                   (List.map (fun kv => repr (fst kv) ++ ": " ++ repr (snd kv))
                      items) = true).
  { simpl in H. induction items as [|[k v] items IHl]; [reflexivity|].
    simpl in *. apply andb_true_iff in H as [Ha Hi].
    apply andb_true_iff in Ha as [Hk Hv].
    rewrite !one_line_app, (IH k Hk), (IH v Hv). apply IHl, Hi. }
  rewrite !one_line_app, one_line_join by (reflexivity || exact Hall).
  reflexivity.
- exact H.
Qed.

End ReprOneLine.

(** ** The keyword arguments and the lines of the file *)
Section DocsPlain.
Import Docs DocsSpec More.

Variable cells : registry.
Variable skip : gset string.
Variables skip_plot skip_settings : list string.

Lemma kwargs_of_one_line (sig : signature) :
  plain_signature sig = true ->
  one_line (kwargs_of skip_settings sig) = true.
Proof.
intros H. unfold kwargs_of. apply one_line_join; [reflexivity|].
unfold kwargs_list, plain_signature in *.
induction sig as [|[p d] sig IH]; [reflexivity|].
simpl in H. apply andb_true_iff in H as [Hp H].
apply andb_true_iff in Hp as [Hp Hd].
simpl. destruct (_ && _); [|exact (IH H)].
simpl. rewrite !one_line_app, (identifier_one_line p Hp), (one_line_repr d Hd).
exact (IH H).
Qed.

(** X8: the keyword arguments of a function with named parameters and
    plain defaults are on one line, and so is the line of the example
    call: [repr] escapes the line break of a str default, so no default
    can break that line. *)
Theorem kwargs_on_one_line (name : string) (sig : signature) :
  plain_signature sig = true ->
  one_line (kwargs_of skip_settings sig) = true
  /\ (one_line name = true ->
      one_line (reconstruction_call name (kwargs_of skip_settings sig)) = true).
Proof.
intros H. pose proof (kwargs_of_one_line sig H) as Hk.
split; [exact Hk|]. intros Hn.
unfold reconstruction_call. rewrite !one_line_app, Hn, Hk. reflexivity.
Qed.

Hypothesis names_are_identifiers : forallb identifier (keys cells) = true.
Hypothesis signatures_are_plain :
  forall name sig, In (name, sig) cells -> plain_signature sig = true.

(** X9: for a registry of named functions with plain defaults, the file
    read line by line is the lines of the header followed by the lines of
    the sections of the documented names, and nothing else: the text of no
    name and of no default runs over into another line. *)
Theorem file_reads_back_line_by_line :
  split_lines (output cells skip skip_plot skip_settings)
  = file_lines cells skip skip_plot skip_settings
  /\ join nl (file_lines cells skip skip_plot skip_settings)
     = output cells skip skip_plot skip_settings
  /\ forall x,
       count (autofunction_directive x)
         (split_lines (output cells skip skip_plot skip_settings))
       = count x (documented cells skip).
Proof.
assert (Hkw : forall name sig, In (name, sig) cells ->
                               one_line (kwargs_of skip_settings sig) = true).
{ intros name sig Hin. apply kwargs_of_one_line, (signatures_are_plain name sig Hin). }
split; [apply split_lines_output; assumption|].
split; [symmetry; apply output_file_lines|].
intros x. apply output_counts_any; assumption.
Qed.

End DocsPlain.

(** ** The example call of a function without keyword arguments *)
Section DocsEdge.
Import Docs DocsSpec More.

Variable cells : registry.
Variable skip : gset string.
Variables skip_plot skip_settings : list string.

(** X10: a function none of whose parameters has a default of one of the
    four types outside the settings-skip set (a function without
    parameters, say) has an empty keyword text, and no other function has;
    its example calls get_component with the name, a comma, a blank and
    nothing after them. *)
Theorem example_call_without_arguments (name : string) (sig : signature) :
  (kwargs_of skip_settings sig = EmptyString <->
   forall p, In p sig -> primitive (snd p) -> In (fst p) skip_settings)
  /\ (In name (documented cells skip) ->
      contains skip_plot name = false ->
      getitem cells name = OK sig ->
      (forall p, In p sig -> primitive (snd p) -> In (fst p) skip_settings) ->
      written (document cells skip skip_plot skip_settings name)
      = join nl (section_lines true name EmptyString)
      /\ nth_error (section_lines true name EmptyString) 12
         = Some ("  c = ubcpdk.PDK.get_component(" ++ str1 dquote ++ name
                 ++ str1 dquote ++ ", )")).
Proof.
assert (Hnil : kwargs_list skip_settings sig = [] <->
               forall p, In p sig -> primitive (snd p) -> In (fst p) skip_settings).
{ unfold kwargs_list. split.
  - intros E p Hp Hprim.
    destruct (contains skip_settings (fst p)) eqn:Ec;
      [apply contains_In; exact Ec|].
    exfalso. apply map_eq_nil in E.
    assert (Hin : In p (List.filter
                          (fun p => isinstance_int_float_str_tuple (snd p)
                                    && negb (contains skip_settings (fst p))) sig)).
    { apply filter_In. split; [exact Hp|].
      rewrite Ec, (proj2 (isinstance_primitive (snd p)) Hprim). reflexivity. }
    rewrite E in Hin. destruct Hin.
  - intros H. rewrite List_filter_none; [reflexivity|].
    intros p Hp. destruct (isinstance_int_float_str_tuple (snd p)) eqn:Ei;
      [|reflexivity].
    apply isinstance_primitive in Ei.
    rewrite (proj2 (contains_In skip_settings (fst p)) (H p Hp Ei)). reflexivity. }
assert (Hempty : kwargs_of skip_settings sig = EmptyString <->
                 kwargs_list skip_settings sig = []).
{ unfold kwargs_of. split; [|intros ->; reflexivity].
  unfold kwargs_list.
  destruct (List.filter _ sig) as [|[q v] rest]; [reflexivity|].
  intros E. exfalso. apply (f_equal String.length) in E.
  cbn [List.map fst snd] in E.
  destruct (List.map _ rest);
    [simpl join in E|change (join ", " (?x :: ?y :: ?z)) with (x ++ ", " ++ join ", " (y :: z)) in E];
    rewrite ?str_length_app in E; simpl in E; lia. }
split; [rewrite Hempty; exact Hnil|].
intros Hin Hplot Hsig Hnone.
destruct (written_documented cells skip skip_plot skip_settings name Hin)
  as [sig' [Hsig' Hw]].
rewrite Hsig in Hsig'. injection Hsig' as <-.
rewrite Hw, Hplot, (proj2 Hempty (proj2 Hnil Hnone)).
split; reflexivity.
Qed.

End DocsEdge.

(** ** bend90: errors, pins, the script run *)
Section Bend90More.
Import Bend90 More.
Context {LAYER : Layers} {pp : Layout}.



Context {contract : LayoutContract}.

(** X13: bend90 draws one pin marker for each port of the bend, in the
    order of the ports and all on LAYER.PORT; they are the last markers of
    the cell it returns. *)
Theorem bend90_one_pin_per_port (radius width : pyval) (c0 c : cell) :
  bend_circular radius width WG [DEVREC] 1 = OK c0 ->
  bend90 radius width = OK c ->
  exists earlier,
    pins_of c = (earlier ++ List.map (fun p => pin p PORT) (ports_of c0))%list
    /\ List.length (pins_of c)
       = (List.length earlier + List.length (ports_of c0))%nat.
Proof.
intros Hb Hc. apply bend90_inv in Hc as (c0' & ls & Hb' & Hl & ->).
rewrite Hb in Hb'. injection Hb' as <-.
exists (pins_of (add_labels c0 0 ls)).
rewrite autoname_pins_of, add_pins_pins_of.
destruct (add_labels_spec ls c0 0) as (_ & _ & Hp & _). rewrite Hp.
split; [reflexivity|].
rewrite List.length_app, List.length_map. reflexivity.
Qed.

(** X14: run as a script, the module shows the cell of bend90 with its
    defaults: it raises what the bend of radius 10 and width 0.5 raises,
    and when that bend is built it shows a cell whose three labels read
    the library text, the component text and
    Spice_param:radius=10.000u wg_width=0.500u, with a pin marker on
    LAYER.PORT for each port of the bend. *)
Theorem main_shows_the_default_bend :
  (forall e, bend_circular default_radius default_width WG [DEVREC] 1 = Raise e ->
             main = Raise e)
  /\ (forall c0,
        bend_circular default_radius default_width WG [DEVREC] 1 = OK c0 ->
        exists c,
          main = OK c
          /\ List.map text (labels_of c)
             = [ "Lumerical_INTERCONNECT_library=Design kits/EBeam";
                 "Lumerical_INTERCONNECT_component=ebeam_bend_1550";
                 "Spice_param:radius=10.000u wg_width=0.500u" ]
          /\ List.Forall (fun l => label_layer l = DEVREC) (labels_of c)
          /\ List.Forall (fun p => In (pin p PORT) (pins_of c)) (ports_of c0)).
Proof.
split.
- intros e Hb. unfold main, bend90_body, rbind. rewrite Hb. reflexivity.
- intros c0 Hb. unfold main, bend90_body, rbind. rewrite Hb.
  change (labels default_radius default_width)
    with (OK [ "Lumerical_INTERCONNECT_library=Design kits/EBeam";
               "Lumerical_INTERCONNECT_component=ebeam_bend_1550";
               "Spice_param:radius=10.000u wg_width=0.500u" ]).
  eexists. split; [reflexivity|].
  rewrite autoname_labels_of, add_pins_labels_of.
  rewrite autoname_pins_of, add_pins_pins_of.
  match goal with
  | |- context [add_labels c0 0 ?ls] =>
      destruct (add_labels_spec ls c0 0) as (_ & _ & Hp & Hl)
  end.
  rewrite Hl, Hp, (bend_circular_labels _ _ _ _ _ _ Hb).
  split; [reflexivity|]. split; [repeat constructor|].
  apply List.Forall_forall. intros p Hp'. apply in_or_app. right.
  apply in_map_iff. exists p. auto.
Qed.

End Bend90More.

(** ** The format [.3f] of an integer *)
Section FormatExact.
Import Bend90 More.

Lemma digits2_pos_lower (p : positive) :
  2 ^ (Z.pos (digits2_pos p) - 1) <= Z.pos p.
Proof.
induction p as [p IH|p IH|]; simpl digits2_pos.
- rewrite Pos2Z.inj_succ.
  replace (Z.succ (Z.pos (digits2_pos p)) - 1) with (Z.succ (Z.pos (digits2_pos p) - 1)) by lia.
  rewrite Z.pow_succ_r by lia. lia.
- rewrite Pos2Z.inj_succ.
  replace (Z.succ (Z.pos (digits2_pos p)) - 1) with (Z.succ (Z.pos (digits2_pos p) - 1)) by lia.
  rewrite Z.pow_succ_r by lia. lia.
- simpl. lia.
Qed.

Lemma digits2_pos_below (p : positive) :
  Z.pos p < 2 ^ 53 -> Z.pos (digits2_pos p) <= 53.
Proof.
intros H. pose proof (digits2_pos_lower p) as Hl.
destruct (Z_le_gt_dec (Z.pos (digits2_pos p)) 53) as [Hd|Hd]; [exact Hd|].
exfalso.
assert (2 ^ 53 <= 2 ^ (Z.pos (digits2_pos p) - 1)) by (apply Z.pow_le_mono_r; lia).
lia.
Qed.

Lemma iter_xO_digits (p k : positive) :
  digits2_pos (Pos.iter xO p k) = (digits2_pos p + k)%positive.
Proof.
induction k as [|k IH] using Pos.peano_ind.
- simpl. lia.
- rewrite Pos.iter_succ. simpl digits2_pos. rewrite IH. lia.
Qed.

Lemma iter_xO_value (p k : positive) :
  Z.pos (Pos.iter xO p k) = Z.pos p * 2 ^ Z.pos k.
Proof.
induction k as [|k IH] using Pos.peano_ind.
- simpl. lia.
- rewrite Pos.iter_succ, Pos2Z.inj_xO, IH, Pos2Z.inj_succ, Z.pow_succ_r by lia.
  lia.
Qed.

Lemma shr_fexp_exact (m : positive) (e : Z) :
  Z.pos (digits2_pos m) = 53 -> -52 <= e <= 0 ->
  shr_fexp prec emax (Z.pos m) e loc_Exact
  = ({| shr_m := Z.pos m; shr_r := false; shr_s := false |}, e).
Proof.
intros Hd He. unfold shr_fexp, Zdigits2, fexp. rewrite Hd.
replace (Z.max (53 + e - prec) (emin prec emax) - e) with 0
  by (unfold prec, emax, emin; lia).
reflexivity.
Qed.

(** An integer below [2 ^ 53] is a float: its mantissa is the integer
    shifted to 53 bits. *)
Lemma binary_round_small (sx : bool) (p : positive) :
  Z.pos p < 2 ^ 53 ->
  exists m e,
    binary_round prec emax sx p 0 = S754_finite sx m e
    /\ -52 <= e <= 0 /\ Z.pos m = Z.pos p * 2 ^ (- e).
Proof.
intros Hp. pose proof (digits2_pos_below p Hp) as Hd.
assert (Haux : forall m e,
           Z.pos (digits2_pos m) = 53 -> -52 <= e <= 0 ->
           binary_round_aux prec emax sx (Z.pos m) e loc_Exact
           = S754_finite sx m e).
{ intros m e Hm He. unfold binary_round_aux.
  rewrite (shr_fexp_exact m e Hm He).
  cbn [shr_m loc_of_shr_record round_nearest_even].
  rewrite (shr_fexp_exact m e Hm He). cbn [shr_m].
  replace (e <=? emax - prec) with true; [reflexivity|].
  symmetry. apply Z.leb_le. unfold emax, prec. lia. }
unfold binary_round, fexp, shl_align.
replace (Z.max (Z.pos (digits2_pos p) + 0 - prec) (emin prec emax) - 0)
  with (Z.pos (digits2_pos p) - 53) by (unfold prec, emax, emin; lia).
destruct (Z.pos (digits2_pos p) - 53) as [|k|k] eqn:Ek; try lia.
- exists p, 0. split; [apply Haux; lia|]. split; [lia|]. simpl. lia.
- replace (Z.max (Z.pos (digits2_pos p) + 0 - prec) (emin prec emax))
    with (Z.neg k) by (unfold prec, emax, emin; lia).
  exists (Pos.iter xO p k), (Z.neg k). split.
  + apply Haux; [rewrite iter_xO_digits; lia|lia].
  + split; [lia|]. rewrite iter_xO_value. reflexivity.
Qed.

Lemma fixed3_integer (sx : bool) (n : Z) :
  0 <= n ->
  fixed3 sx (n * 1000) = sign_str sx ++ repr_int n ++ ".000".
Proof.
intros Hn. unfold fixed3.
replace (n * 1000 / 1000) with n by (symmetry; apply Z.div_mul; lia).
replace (n * 1000 / 100 mod 10) with 0.
2:{ replace (n * 1000) with (n * 10 * 100) by lia.
    rewrite Z.div_mul by lia. symmetry. apply Z.mod_mul. lia. }
replace (n * 1000 / 10 mod 10) with 0.
2:{ replace (n * 1000) with (n * 100 * 10) by lia.
    rewrite Z.div_mul by lia.
    replace (n * 100) with (n * 10 * 10) by lia. symmetry. apply Z.mod_mul. lia. }
replace (n * 1000 mod 10) with 0.
2:{ replace (n * 1000) with (n * 100 * 10) by lia. symmetry. apply Z.mod_mul. lia. }
reflexivity.
Qed.

Lemma format_small_round (sx : bool) (p : positive) :
  Z.pos p < 2 ^ 53 ->
  format_float_3f (binary_round prec emax sx p 0)
  = sign_str sx ++ repr_int (Z.pos p) ++ ".000".
Proof.
intros Hp. destruct (binary_round_small sx p Hp) as (m & e & -> & He & Hm).
unfold format_float_3f. rewrite <- (fixed3_integer sx (Z.pos p)) by lia.
f_equal. destruct (0 <=? e) eqn:E.
- apply Z.leb_le in E. assert (e = 0) by lia. subst e.
  simpl in Hm. rewrite Hm. simpl. lia.
- assert (H2 : 0 < 2 ^ (- e)) by (apply Z.pow_pos_nonneg; lia).
  unfold round_half_even. rewrite Hm.
  replace (Z.pos p * 2 ^ (- e) * 1000) with (Z.pos p * 1000 * 2 ^ (- e)) by lia.
  rewrite Z.div_mul, Z.mod_mul by lia.
  assert (Hc : (2 * 0 ?= 2 ^ (- e)) = Lt) by (apply Z.compare_lt_iff; lia).
  rewrite Hc. reflexivity.
Qed.

(** X15: an int radius or width between [- 2 ^ 53] and [2 ^ 53] is
    written exactly: the format .3f gives the decimal digits of the int,
    with its sign, followed by .000. *)
Theorem format_3f_int_exact (z : Z) :
  - 2 ^ 53 < z < 2 ^ 53 ->
  format_3f (PyInt z) = OK (repr_int z ++ ".000").
Proof.
intros Hz. unfold format_3f, float_of_int.
destruct z as [|p|p].
- reflexivity.
- pose proof (format_small_round false p ltac:(lia)) as Hf.
  destruct (binary_round_small false p ltac:(lia)) as (m & e & Hr & _).
  change (binary_normalize prec emax (Z.pos p) 0 false)
    with (binary_round prec emax false p 0).
  rewrite Hr in *. cbv beta iota delta [rbind]. rewrite Hf. reflexivity.
- pose proof (format_small_round true p ltac:(lia)) as Hf.
  destruct (binary_round_small true p ltac:(lia)) as (m & e & Hr & _).
  change (binary_normalize prec emax (Z.neg p) 0 false)
    with (binary_round prec emax true p 0).
  rewrite Hr in *. cbv beta iota delta [rbind]. rewrite Hf. reflexivity.
Qed.

End FormatExact.

(** ** The lookup of the loop *)
Section DocsLookup.
Import Docs DocsSpec.

Variable cells : registry.
Variable skip : gset string.
Variables skip_plot skip_settings : list string.



End DocsLookup.

(** ** The sample inputs meet the hypotheses of the further properties *)
Section MoreWitnesses.
Import Docs DocsSpec Bend90 Bend90.Toy Examples More.

Lemma library_skipped : "library" ∈ Docs.skip.
Proof. apply (bool_decide_unpack _). vm_compute. exact I. Qed.

Lemma component_factory_skipped : "component_factory" ∈ Docs.skip.
Proof. apply (bool_decide_unpack _). vm_compute. exact I. Qed.

Lemma waveguide_not_skipped : "waveguide" ∉ Docs.skip.
Proof. apply (bool_decide_unpack _). vm_compute. exact I. Qed.

Lemma sample_cells_plain (name : string) (sig : signature) :
  In (name, sig) sample_cells -> plain_signature sig = true.
Proof.
intros H. simpl in H.
repeat (destruct H as [H|H]; [injection H as <- <-; vm_compute; reflexivity|]).
destruct H.
Qed.

Lemma skipped_cells_left_out (name : string) :
  In name (keys skipped_cells) ->
  name ∈ Docs.skip \/ startswith name "_" = true.
Proof.
intros H. simpl in H. destruct H as [<-|[<-|[<-|[]]]].
- left. exact library_skipped.
- right. reflexivity.
- left. exact component_factory_skipped.
Qed.

Lemma no_section_for_other_names_witness :
  forallb identifier (keys sample_cells) = true
  /\ "library" ∈ Docs.skip
  /\ In "library" (keys sample_cells)
  /\ count (autofunction_directive "library")
       (split_lines
          (output sample_cells Docs.skip Docs.skip_plot Docs.skip_settings))
     = 0%nat
  /\ count_headed "library"
       (split_lines
          (output sample_cells Docs.skip Docs.skip_plot Docs.skip_settings))
     = 0%nat.
Proof.
split; [reflexivity|]. split; [exact library_skipped|].
split; [vm_compute; auto 10|].
exact (no_section_for_other_names sample_cells Docs.skip Docs.skip_plot
         Docs.skip_settings "library" eq_refl sample_cells_one_line
         (or_introl library_skipped)).
Defined.

Lemma printed_names_witness :
  stdout (fst (run sample_cells Docs.skip Docs.skip_plot Docs.skip_settings))
  = ["add_fiber_array_siepic"; "bend90"; "waveguide"]
  /\ NoDup (stdout (fst (run sample_cells Docs.skip Docs.skip_plot
                           Docs.skip_settings))).
Proof.
destruct (printed_names sample_cells Docs.skip Docs.skip_plot
            Docs.skip_settings) as (Hs & _ & _ & Hn).
split; [rewrite Hs; vm_compute; reflexivity|exact (Hn sample_cells_NoDup)].
Defined.

Lemma header_alone_witness :
  run skipped_cells Docs.skip Docs.skip_plot Docs.skip_settings
  = ({| file := header; stdout := [] |}, OK tt)
  /\ run [] Docs.skip Docs.skip_plot Docs.skip_settings
     = ({| file := header; stdout := [] |}, OK tt).
Proof.
split.
- exact (header_alone skipped_cells Docs.skip Docs.skip_plot
           Docs.skip_settings skipped_cells_left_out).
- apply header_alone. intros name [].
Defined.

Lemma entry_left_out_changes_nothing_witness :
  startswith "_private" "_" = true
  /\ run (("_private", [("n", PyInt 1)]) :: bend90_only)
       Docs.skip Docs.skip_plot Docs.skip_settings
     = run bend90_only Docs.skip Docs.skip_plot Docs.skip_settings.
Proof.
split; [reflexivity|].
exact (entry_left_out_changes_nothing Docs.skip Docs.skip_plot
         Docs.skip_settings bend90_only "_private" [("n", PyInt 1)]
         (or_intror eq_refl)).
Defined.

Lemma new_entry_adds_its_section_witness :
  NoDup (keys bend90_only)
  /\ ~ In "waveguide" (keys bend90_only)
  /\ ("waveguide" ∉ Docs.skip)
  /\ exists below above : list string,
       documented bend90_only Docs.skip = (below ++ above)%list
       /\ documented (("waveguide", two_line_default) :: bend90_only) Docs.skip
          = (below ++ "waveguide" :: above)%list.
Proof.
assert (Hn : NoDup (keys bend90_only))
  by (apply (bool_decide_unpack _); vm_compute; exact I).
assert (Hk : ~ In "waveguide" (keys bend90_only))
  by (simpl; intros [H|[]]; discriminate H).
split; [exact Hn|]. split; [exact Hk|]. split; [exact waveguide_not_skipped|].
destruct (new_entry_adds_its_section Docs.skip Docs.skip_plot
            Docs.skip_settings bend90_only "waveguide" two_line_default
            Hn Hk waveguide_not_skipped eq_refl)
  as (below & above & H1 & H2 & _).
exists below, above. split; assumption.
Defined.

Lemma skip_tuples_by_members_witness :
  run sample_cells Docs.skip Docs.skip_plot Docs.skip_settings
  = run sample_cells Docs.skip
      ["add_fiber_array_siepic"; "add_fiber_array_siepic"]
      ["safe_cell_names"; "flatten"; "safe_cell_names"].
Proof.
apply skip_tuples_by_members.
- intros x. unfold Docs.skip_plot. simpl. tauto.
- intros x. unfold Docs.skip_settings. simpl. tauto.
Defined.


Lemma kwargs_on_one_line_witness :
  plain_signature two_line_default = true
  /\ one_line ("a" ++ nl ++ "b") = false
  /\ one_line (kwargs_of Docs.skip_settings two_line_default) = true
  /\ one_line (reconstruction_call "waveguide"
                 (kwargs_of Docs.skip_settings two_line_default)) = true.
Proof.
split; [reflexivity|]. split; [reflexivity|].
destruct (kwargs_on_one_line Docs.skip_settings "waveguide" two_line_default
            eq_refl) as [H1 H2].
split; [exact H1|exact (H2 eq_refl)].
Defined.

Lemma file_reads_back_line_by_line_witness :
  forallb identifier (keys sample_cells) = true
  /\ split_lines
       (output sample_cells Docs.skip Docs.skip_plot Docs.skip_settings)
     = file_lines sample_cells Docs.skip Docs.skip_plot Docs.skip_settings
  /\ join nl (file_lines sample_cells Docs.skip Docs.skip_plot
                Docs.skip_settings)
     = output sample_cells Docs.skip Docs.skip_plot Docs.skip_settings.
Proof.
split; [reflexivity|].
destruct (file_reads_back_line_by_line sample_cells Docs.skip Docs.skip_plot
            Docs.skip_settings eq_refl sample_cells_plain) as (H1 & H2 & _).
split; assumption.
Defined.

Lemma example_call_without_arguments_witness :
  kwargs_of Docs.skip_settings [("component", PyEmpty)] = EmptyString
  /\ written (document ring_only Docs.skip Docs.skip_plot Docs.skip_settings
                "ring")
     = join nl (section_lines true "ring" EmptyString)
  /\ nth_error (section_lines true "ring" EmptyString) 12
     = Some ("  c = ubcpdk.PDK.get_component(" ++ str1 dquote ++ "ring"
             ++ str1 dquote ++ ", )").
Proof.
assert (Hp : forall p : string * pyval,
           In p [("component", PyEmpty)] -> primitive (snd p) ->
           In (fst p) Docs.skip_settings)
  by (intros p [<-|[]] []).
destruct (example_call_without_arguments ring_only Docs.skip Docs.skip_plot
            Docs.skip_settings "ring" [("component", PyEmpty)])
  as [He Hw].
split; [apply He; exact Hp|].
apply Hw; [vm_compute; auto|reflexivity|reflexivity|exact Hp].
Defined.



Lemma bend90_one_pin_per_port_witness :
  exists c0 c earlier,
    bend_circular default_radius default_width WG [DEVREC] 1 = OK c0
    /\ bend90 default_radius default_width = OK c
    /\ pins_of c
       = (earlier ++ List.map (fun p => pin p PORT) (ports_of c0))%list.
Proof.
destruct bend90_default_bend as [c0 Hb].
destruct bend90_default_returns as [c Hc].
destruct (@bend90_one_pin_per_port toy_layers toy_layout toy_contract
            default_radius default_width c0 c Hb Hc) as (earlier & H & _).
exists c0, c, earlier. repeat split; assumption.
Defined.

Lemma main_shows_the_default_bend_witness :
  exists c,
    main = OK c
    /\ List.map text (labels_of c)
       = [ "Lumerical_INTERCONNECT_library=Design kits/EBeam";
           "Lumerical_INTERCONNECT_component=ebeam_bend_1550";
           "Spice_param:radius=10.000u wg_width=0.500u" ].
Proof.
destruct bend90_default_bend as [c0 Hb].
destruct (proj2 (@main_shows_the_default_bend toy_layers toy_layout
                   toy_contract) c0 Hb) as (c & Hm & Hl & _).
exists c. split; assumption.
Defined.

Lemma format_3f_int_exact_witness :
  - 2 ^ 53 < -7 < 2 ^ 53
  /\ format_3f (PyInt (-7)) = OK "-7.000"
  /\ format_3f (PyInt 9007199254740991) = OK "9007199254740991.000".
Proof.
split; [split; reflexivity|].
split.
- exact (format_3f_int_exact (-7) (conj eq_refl eq_refl)).
- exact (format_3f_int_exact 9007199254740991 (conj eq_refl eq_refl)).
Defined.


End MoreWitnesses.
